(** * bubble: a ratio-driven container churn controller

    Shallow embedding of [main.go] (package main of github.com/fmarmol/bubble)
    and the properties of its ratio parser, candidate selection, replication,
    destruction and churn step.

    Conventions.
    - A Go [uint64] is a [Z] in [0, 2^64); a Go [int] is a [Z] in
      [-2^63, 2^63) (the Dockerfile builds for linux on a 64-bit target, where
      [int] has 64 bits); conversions between the two wrap around and are
      written out.
    - A Go [string] is a [string] of bytes.
    - Calls to the Docker client go through an interface record; every call is
      appended to a trace kept in the world, next to the daemon's own state. *)

From Stdlib Require Import ZArith List String Ascii Bool Lia.
Import ListNotations.
Local Open Scope string_scope.
Local Open Scope list_scope.
Local Open Scope Z_scope.

(** ** Machine integers *)

Definition uint64_mod : Z := 2 ^ 64.

(** Reduction of a mathematical integer into [uint64]. *)
Definition to_uint64 (x : Z) : Z := x mod uint64_mod.

(** The conversion [int(x)]: the low 64 bits read as a signed number. *)
Definition to_int (x : Z) : Z := (x + 2 ^ 63) mod uint64_mod - 2 ^ 63.

(** ** Errors

    [fmt.Errorf] keeps its format and its operands; [Errorf_w] is the call whose
    format ends in [%w], with the error it wraps.  [strconv] reports a
    [*NumError]. *)

Inductive arg : Type :=
| AStr (s : string)
| AUint (n : Z)
| AInt (n : Z).

Inductive error : Type :=
| errors_New (msg : string)
| Errorf (format : string) (args : list arg)
| Errorf_w (format : string) (args : list arg) (wrapped : error)
| NumError (func num : string) (err : error).

Module strconv.

Definition ErrSyntax : error := errors_New "invalid syntax".
Definition ErrRange : error := errors_New "value out of range".

Definition syntaxError (fn str : string) : error := NumError fn str ErrSyntax.
Definition rangeError (fn str : string) : error := NumError fn str ErrRange.

Definition byte_of (c : ascii) : Z := Z.of_N (N_of_ascii c).

(** [lower(c)] is [c | ('x' - 'X')]. *)
Definition lower (c : Z) : Z := Z.lor c 32.

(** The digit decoded from one byte, [None] on the [default] branch. *)
Definition digit_of (c : Z) : option Z :=
  if (48 <=? c) && (c <=? 57) then Some (c - 48)
  else if (97 <=? lower c) && (lower c <=? 122) then Some ((lower c - 97 + 10) mod 256)
  else None.

(** The body of [for _, c := range []byte(s)] of [ParseUint] with base 10:
    [n] is the accumulator, [s0] the whole input (for the error). *)
Fixpoint parse_digits (s0 : string) (cutoff maxVal : Z) (bs : string) (n : Z)
  : Z * option error :=
  match bs with
  | EmptyString => (n, None)
  | String c rest =>
      match digit_of (byte_of c) with
      | None => (0, Some (syntaxError "ParseUint" s0))
      | Some d =>
          if d >=? 10 then (0, Some (syntaxError "ParseUint" s0))
          else if n >=? cutoff then (maxVal, Some (rangeError "ParseUint" s0))
          else
            let n' := to_uint64 (n * 10) in
            let n1 := to_uint64 (n' + d) in
            if (n1 <? n') || (n1 >? maxVal)
            then (maxVal, Some (rangeError "ParseUint" s0))
            else parse_digits s0 cutoff maxVal rest n1
      end
  end.

(** [strconv.ParseUint(s, 10, bitSize)] for [0 < bitSize <= 64]: the only
    base this program uses is 10, so the prefix and underscore handling of
    base 0 is not part of the model. *)
Definition ParseUint (s : string) (bitSize : Z) : Z * option error :=
  match s with
  | EmptyString => (0, Some (syntaxError "ParseUint" s))
  | _ =>
      let cutoff := (uint64_mod - 1) / 10 + 1 in
      let maxVal := to_uint64 (to_uint64 (Z.shiftl 1 bitSize) - 1) in
      parse_digits s cutoff maxVal s 0
  end.

End strconv.

Module strings.

(** [strings.Split(s, sep)] for a separator of one byte: the substrings
    between the occurrences of [sep], one more than there are occurrences. *)
Fixpoint Split (s : string) (sep : ascii) : list string :=
  match s with
  | EmptyString => [EmptyString]
  | String c rest =>
      if Ascii.eqb c sep then EmptyString :: Split rest sep
      else match Split rest sep with
           | [] => [String c EmptyString]
           | t :: ts => String c t :: ts
           end
  end.

End strings.

(** ** The ratio *)

Record RatioValue : Type := mkRatio { Up : Z; Down : Z }.

(** [func (r *RatioValue) Set(s string) error]: the receiver after the call
    and the error returned. *)
Definition RatioValue_Set (r : RatioValue) (s : string) : RatioValue * option error :=
  let vars := strings.Split s ":"%char in
  match vars with
  | [v0; v1] =>
      match strconv.ParseUint v0 8 with
      | (_, Some err) => (r, Some err)
      | (up, None) =>
          match strconv.ParseUint v1 8 with
          | (_, Some err) => (r, Some err)
          | (down, None) => (mkRatio up down, None)
          end
      end
  | _ => (r, Some (errors_New "wrong format"))
  end.

(** [func (r RatioValue) isZero() bool]. *)
Definition RatioValue_isZero (r : RatioValue) : bool :=
  (Up r =? 0) || (Down r =? 0).

(** [main], lines 153-155: a zero ratio is replaced by 1:1. *)
Definition resolve (r : RatioValue) : RatioValue :=
  if RatioValue_isZero r then mkRatio 1 1 else r.

(** [main], lines 146-155: the ratio the loop runs with, from the value of the
    [--ratio] flag when it is given.  The flag set exits the process when
    [Set] fails, which is the error here. *)
Definition main_ratio (flag : option string) : RatioValue + error :=
  let ratio := mkRatio 0 0 in
  match flag with
  | None => inl (resolve ratio)
  | Some s =>
      match RatioValue_Set ratio s with
      | (_, Some err) => inr err
      | (ratio', None) => inl (resolve ratio')
      end
  end.

(** ** Docker API types

    Only the fields the program reads or passes on are kept.  The listing and
    the inspection always carry their network settings and their base part, so
    [container.NetworkSettings] and [infos.ContainerJSONBase] are records here,
    not pointers that may be nil. *)

Record EndpointSettings : Type := mkEndpoint { NetworkID : string; IPAddress : string }.

(** [map[string]*network.EndpointSettings], by network name. *)
Definition EndpointsMap : Type := list (string * EndpointSettings).

(** [types.Container], an element of the listing. *)
Record Container : Type := mkContainer {
  ID : string;
  Image : string;
  NetworkSettings_Networks : EndpointsMap
}.

Record Config : Type := mkConfig { Config_Image : string; Config_Cmd : list string }.
Record HostConfig : Type := mkHostConfig { AutoRemove : bool; NetworkMode : string }.

(** [types.ContainerJSON], the result of an inspection: [infos.Config],
    [infos.ContainerJSONBase.HostConfig] and [infos.NetworkSettings.Networks]. *)
Record ContainerJSON : Type := mkContainerJSON {
  JSON_Config : Config;
  JSON_HostConfig : HostConfig;
  JSON_Networks : EndpointsMap
}.

Record NetworkingConfig : Type := mkNetworkingConfig { EndpointsConfig : EndpointsMap }.

Record ContainerCreateCreatedBody : Type := mkCreated {
  Created_ID : string;
  Warnings : list string
}.

Inductive WaitCondition : Type :=
| WaitConditionNotRunning
| WaitConditionNextExit
| WaitConditionRemoved.

(** What the two channels of [ContainerWait] deliver: a body on the result
    channel, or an error on the error channel (and then nothing, ever, on the
    result channel). *)
Inductive wait_result : Type :=
| WaitOK (statusCode : Z)
| WaitError (err : error).

(** One call to the Docker client, with its arguments. *)
Inductive call : Type :=
| CList
| CInspect (id : string)
| CCreate (config : Config) (hostConfig : HostConfig)
          (networkingConfig : NetworkingConfig) (name : string)
| CStart (id : string)
| CStop (id : string)
| CWait (id : string) (condition : WaitCondition)
| CRemove (id : string).

(** The Docker client: a daemon state and the seven operations used.  Each
    operation may change the daemon and may fail. *)
Record Client : Type := mkClient {
  daemon : Type;
  ContainerList : daemon -> daemon * (list Container + error);
  ContainerInspect : string -> daemon -> daemon * (ContainerJSON + error);
  ContainerCreate : Config -> HostConfig -> NetworkingConfig -> string ->
                    daemon -> daemon * (ContainerCreateCreatedBody + error);
  ContainerStart : string -> daemon -> daemon * option error;
  ContainerStop : string -> daemon -> daemon * option error;
  ContainerWait : string -> WaitCondition -> daemon -> daemon * wait_result;
  ContainerRemove : string -> daemon -> daemon * option error
}.

(** ** The world and the monad of the program *)

Inductive level : Type := DebugLevel | InfoLevel | WarnLevel | ErrorLevel.

Record entry : Type := mkEntry {
  entry_level : level;
  entry_fields : list (string * string);
  entry_msg : string
}.

(** The state a step runs in: the daemon, the calls made to it so far (oldest
    first), the log, the global generator of [math/rand] and the clock.
    [generator s k] is the [k]-th raw value the generator yields after
    [rand.Seed(s)]. *)
Record World (cl : Client) : Type := mkWorld {
  dk : daemon cl;
  trace : list call;
  logs : list entry;
  generator : Z -> nat -> Z;
  rng_seed : Z;
  rng_pos : nat;
  clock : Z
}.

Arguments mkWorld {cl}.
Arguments dk {cl}.
Arguments trace {cl}.
Arguments logs {cl}.
Arguments generator {cl}.
Arguments rng_seed {cl}.
Arguments rng_pos {cl}.
Arguments clock {cl}.

(** How a function ends: it returns, it panics, or it waits for ever. *)
Inductive outcome (A : Type) : Type :=
| Done (a : A)
| Panic (msg : string)
| Blocked.

Arguments Done {A}.
Arguments Panic {A}.
Arguments Blocked {A}.

Definition M (cl : Client) (A : Type) : Type := World cl -> World cl * outcome A.

Definition ret {cl A} (a : A) : M cl A := fun w => (w, Done a).

Definition bind {cl A B} (m : M cl A) (k : A -> M cl B) : M cl B :=
  fun w =>
    match m w with
    | (w', Done a) => k a w'
    | (w', Panic msg) => (w', Panic msg)
    | (w', Blocked) => (w', Blocked)
    end.

Definition panic {cl A} (msg : string) : M cl A := fun w => (w, Panic msg).

Notation "x <- m ;; k" := (bind m (fun x => k))
  (at level 61, m at next level, right associativity).
Notation "m ;;; k" := (bind m (fun _ => k))
  (at level 61, right associativity).

Section Program.

Context {cl : Client}.

(** Recording a call: the daemon moves on and the call joins the trace. *)
Definition called (w : World cl) (d : daemon cl) (c : call) : World cl :=
  mkWorld d (trace w ++ [c]) (logs w) (generator w) (rng_seed w) (rng_pos w) (clock w).

Definition client_ContainerList : M cl (list Container + error) :=
  fun w => let (d, r) := ContainerList cl (dk w) in (called w d CList, Done r).

Definition client_ContainerInspect (id : string) : M cl (ContainerJSON + error) :=
  fun w => let (d, r) := ContainerInspect cl id (dk w) in (called w d (CInspect id), Done r).

Definition client_ContainerCreate (config : Config) (hostConfig : HostConfig)
    (networkingConfig : NetworkingConfig) (name : string)
  : M cl (ContainerCreateCreatedBody + error) :=
  fun w =>
    let (d, r) := ContainerCreate cl config hostConfig networkingConfig name (dk w) in
    (called w d (CCreate config hostConfig networkingConfig name), Done r).

Definition client_ContainerStart (id : string) : M cl (option error) :=
  fun w => let (d, r) := ContainerStart cl id (dk w) in (called w d (CStart id), Done r).

Definition client_ContainerStop (id : string) : M cl (option error) :=
  fun w => let (d, r) := ContainerStop cl id (dk w) in (called w d (CStop id), Done r).

(** [readyCh, _ := client.ContainerWait(...); <-readyCh]: the receive
    returns when the result channel delivers; when the wait fails the error
    goes to the channel that is dropped and the receive never returns. *)
Definition client_ContainerWait_ready (id : string) (condition : WaitCondition)
  : M cl Z :=
  fun w =>
    let (d, r) := ContainerWait cl id condition (dk w) in
    (called w d (CWait id condition),
     match r with
     | WaitOK code => Done code
     | WaitError _ => Blocked
     end).

Definition client_ContainerRemove (id : string) : M cl (option error) :=
  fun w => let (d, r) := ContainerRemove cl id (dk w) in (called w d (CRemove id), Done r).

(** [logrus.WithField(...).Info(...)] and the like. *)
Definition logrus (l : level) (fields : list (string * string)) (msg : string)
  : M cl unit :=
  fun w =>
    (mkWorld (dk w) (trace w) (logs w ++ [mkEntry l fields msg])
             (generator w) (rng_seed w) (rng_pos w) (clock w), Done tt).

(** [for _, x := range xs { f(x) }] for a body that only logs. *)
Fixpoint for_each {A} (xs : list A) (f : A -> M cl unit) : M cl unit :=
  match xs with
  | [] => ret tt
  | x :: rest => f x ;;; for_each rest f
  end.

(** [time.Now().Unix()]. *)
Definition time_Now_Unix : M cl Z := fun w => (w, Done (clock w)).

(** [rand.Seed(seed)]: the global generator restarts from [seed]. *)
Definition rand_Seed (seed : Z) : M cl unit :=
  fun w =>
    (mkWorld (dk w) (trace w) (logs w) (generator w) seed 0%nat (clock w), Done tt).

(** [rand.Intn(n)]: panics when [n <= 0], otherwise reduces the next raw
    value of the generator into [0, n). *)
Definition rand_Intn (n : Z) : M cl Z :=
  fun w =>
    if n <=? 0 then (w, Panic "invalid argument to Intn")
    else (mkWorld (dk w) (trace w) (logs w) (generator w)
                  (rng_seed w) (S (rng_pos w)) (clock w),
          Done (generator w (rng_seed w) (rng_pos w) mod n)).

(** [len(xs)], an [int]. *)
Definition len {A} (xs : list A) : Z := Z.of_nat (List.length xs).

(** [xs[i]]: a run-time panic when [i] is out of range. *)
Definition index {A} (xs : list A) (i : Z) : M cl A :=
  if (i <? 0) || (i >=? len xs) then panic "index out of range"
  else match nth_error xs (Z.to_nat i) with
       | Some x => ret x
       | None => panic "index out of range"
       end.

(** [for i := uint64(0); i < n; i++ { body }] where the body either returns
    from the function with an error ([Some]) or falls through ([None]):
    [iterate k i] runs the [k] iterations that start at [i]. *)
Fixpoint iterate (k : nat) (i : Z) (body : Z -> M cl (option error))
  : M cl (option error) :=
  match k with
  | O => ret None
  | S k' =>
      r <- body i ;;
      match r with
      | Some err => ret (Some err)
      | None => iterate k' (i + 1) body
      end
  end.

Definition for_uint64 (n : Z) (body : Z -> M cl (option error)) : M cl (option error) :=
  iterate (Z.to_nat n) 0 body.

(** One iteration of the loop of [copyContainer] (lines 34-52). *)
Definition copy_once (containerConfig : Config) (hostConfig : HostConfig)
    (networkConfig : NetworkingConfig) : M cl (option error) :=
  r <- client_ContainerCreate containerConfig hostConfig networkConfig "" ;;
  match r with
  | inr err => ret (Some (Errorf_w "could not create container: %w" [] err))
  | inl createdBody =>
      for_each (Warnings createdBody) (fun warning => logrus WarnLevel [] warning) ;;;
      logrus InfoLevel [("container", Created_ID createdBody)] "create container" ;;;
      e <- client_ContainerStart (Created_ID createdBody) ;;
      match e with
      | Some err =>
          ret (Some (Errorf_w "could not start container id %s: %w"
                              [AStr (Created_ID createdBody)] err))
      | None =>
          logrus InfoLevel [("container", Created_ID createdBody)] "start container" ;;;
          ret None
      end
  end.

(** [func copyContainer(client, container, n) error]. *)
Definition copyContainer (container : Container) (n : Z) : M cl (option error) :=
  r <- client_ContainerInspect (ID container) ;;
  match r with
  | inr err =>
      ret (Some (Errorf_w "could not inspect container id %s: %w"
                          [AStr (ID container)] err))
  | inl infos =>
      let containerConfig := JSON_Config infos in
      let hostConfig := JSON_HostConfig infos in
      let networkConfig := mkNetworkingConfig (NetworkSettings_Networks container) in
      for_uint64 n (fun _ => copy_once containerConfig hostConfig networkConfig)
  end.

(** One iteration of the loop of [deleteContainer] (lines 62-73). *)
Definition delete_once (candidates : list Container) : M cl (option error) :=
  k <- rand_Intn (len candidates) ;;
  container <- index candidates k ;;
  e <- client_ContainerStop (ID container) ;;
  match e with
  | Some err =>
      ret (Some (Errorf_w "could not stop container id: %s: %w" [AStr (ID container)] err))
  | None =>
      logrus InfoLevel [("container", ID container)] "stop container" ;;;
      client_ContainerWait_ready (ID container) WaitConditionNotRunning ;;;
      e <- client_ContainerRemove (ID container) ;;
      match e with
      | Some err =>
          ret (Some (Errorf_w "could not remove container id  %s: %w"
                              [AStr (ID container)] err))
      | None =>
          logrus InfoLevel [("container", ID container)] "remove container" ;;;
          ret None
      end
  end.

(** [func deleteContainer(client, candidates, n) error]. *)
Definition deleteContainer (candidates : list Container) (n : Z) : M cl (option error) :=
  if to_int n >? len candidates
  then ret (Some (Errorf "can not delete %v containers when exists only %v"
                         [AUint n; AInt (len candidates)]))
  else for_uint64 n (fun _ => delete_once candidates).

(** The loop of [job], lines 83-88: the candidates are the listed
    containers of the image, appended in the order of the listing. *)
Definition select_candidates (containers : list Container) (image : string)
  : list Container :=
  fold_left (fun candidates container =>
               if String.eqb (Image container) image
               then candidates ++ [container]
               else candidates)
            containers [].

(** [func job(client, image, ratio) error]: one churn step. *)
Definition job (image : string) (ratio : RatioValue) : M cl (option error) :=
  r <- client_ContainerList ;;
  match r with
  | inr err => ret (Some (Errorf_w "could not get the list of containers: %w" [] err))
  | inl containers =>
      let candidates := select_candidates containers image in
      for_each candidates
        (fun candidate =>
           logrus DebugLevel [("container", ID candidate); ("image", Image candidate)]
                  "found container") ;;;
      if len candidates =? 0 then ret None
      else
        now <- time_Now_Unix ;;
        rand_Seed now ;;;
        k <- rand_Intn (len candidates) ;;
        containertoCopy <- index candidates k ;;
        e <- copyContainer containertoCopy (Up ratio) ;;
        match e with
        | Some err => ret (Some err)
        | None =>
            e <- deleteContainer candidates (Down ratio) ;;
            match e with
            | Some err => ret (Some err)
            | None => ret None
            end
        end
  end.

End Program.

(** ** The vocabulary of the specification *)

(** The error kinds of the specification, as sets of the errors the code
    builds. *)
Inductive FormatError : error -> Prop :=
| FormatError_tokens : FormatError (errors_New "wrong format")
| FormatError_syntax (num : string) :
    FormatError (strconv.syntaxError "ParseUint" num)
| FormatError_range (num : string) :
    FormatError (strconv.rangeError "ParseUint" num).

Inductive InsufficientCandidatesError : error -> Prop :=
| InsufficientCandidates (n size : Z) :
    InsufficientCandidatesError
      (Errorf "can not delete %v containers when exists only %v" [AUint n; AInt size]).

(** A ratio string as the specification words it, independently of the
    parser: two tokens around one colon, each an unsigned decimal integer in
    the range 0-255. *)
Module RatioSyntax.

(** The place of a character in a string of characters, counted from [i]. *)
Fixpoint place_of (c : ascii) (among : string) (i : Z) : option Z :=
  match among with
  | EmptyString => None
  | String x rest => if Ascii.eqb c x then Some i else place_of c rest (i + 1)
  end.

(** The value of a decimal digit is its place among the ten digits. *)
Definition digit_value (c : ascii) : option Z := place_of c "0123456789" 0.

(** The number written by the digits of [t] after the digits already read
    as [acc]; [None] when [t] holds anything but digits. *)
Fixpoint decimal_from (acc : Z) (t : string) : option Z :=
  match t with
  | EmptyString => Some acc
  | String c rest =>
      match digit_value c with
      | Some d => decimal_from (acc * 10 + d) rest
      | None => None
      end
  end.

Definition unsigned_decimal (t : string) : option Z :=
  match t with
  | EmptyString => None
  | _ => decimal_from 0 t
  end.

Definition uint8_token (t : string) (v : Z) : Prop :=
  unsigned_decimal t = Some v /\ 0 <= v <= 255.

Definition well_formed (s : string) (up down : Z) : Prop :=
  exists a b : string,
    s = (a ++ ":" ++ b)%string /\ uint8_token a up /\ uint8_token b down.

End RatioSyntax.

(** The calls that tear one container down, in order. *)
Definition teardown (c : Container) : list call :=
  [CStop (ID c); CWait (ID c) WaitConditionNotRunning; CRemove (ID c)].

(** A call of a teardown of some container of [pool]. *)
Definition teardown_call_of (pool : list Container) (c : call) : Prop :=
  exists victim, In victim pool /\ In c (teardown victim).

(** The calls of [k] complete replications: a creation, then the start of
    what it created. *)
Definition replications (create : call) (ids : list string) : list call :=
  flat_map (fun id => [create; CStart id]) ids.

(** The containers that [n] successive draws over [pool] pick, when [g] gives
    the raw values of the generator and [pos] is the next one to use: each
    draw ranges over the whole of [pool], whatever was drawn before. *)
Fixpoint drawn_from (pool : list Container) (g : nat -> Z) (pos n : nat) : list Container :=
  match n with
  | O => []
  | S k =>
      match nth_error pool (Z.to_nat (g pos mod len pool)) with
      | Some c => [c]
      | None => []
      end ++ drawn_from pool g (S pos) k
  end.

Definition drawn {cl} (pool : list Container) (w : World cl) (n : nat) : list Container :=
  drawn_from pool (generator w (rng_seed w)) (rng_pos w) n.

(** The world [w] with another generator. *)
Definition with_generator {cl} (w : World cl) (g : Z -> nat -> Z) : World cl :=
  mkWorld (dk w) (trace w) (logs w) g (rng_seed w) (rng_pos w) (clock w).

(** ** A small daemon to run the program against

    An in-memory daemon: the containers it holds, the number of containers it
    has created, and a fuse, the number of calls it still answers before every
    call fails. *)
Module Fake.

Record state : Type := mkState {
  containers : list Container;
  created : nat;
  fuse : option nat
}.

Definition unavailable : error := errors_New "daemon unavailable".
Definition no_such_container : error := errors_New "No such container".

Definition tick (d : state) : option state :=
  match fuse d with
  | None => Some d
  | Some O => None
  | Some (S k) => Some (mkState (containers d) (created d) (Some k))
  end.

Definition lookup (id : string) (d : state) : option Container :=
  find (fun c => String.eqb (ID c) id) (containers d).

Fixpoint fresh_id (n : nat) : string :=
  match n with
  | O => "clone"
  | S k => (fresh_id k ++ "+")%string
  end.

Definition listing (d : state) : state * (list Container + error) :=
  match tick d with
  | None => (d, inr unavailable)
  | Some d' => (d', inl (containers d'))
  end.

Definition inspect (id : string) (d : state) : state * (ContainerJSON + error) :=
  match tick d with
  | None => (d, inr unavailable)
  | Some d' =>
      match lookup id d' with
      | None => (d', inr no_such_container)
      | Some c =>
          (d', inl (mkContainerJSON (mkConfig (Image c) ["serve"])
                                    (mkHostConfig false "default")
                                    (NetworkSettings_Networks c)))
      end
  end.

Definition create (config : Config) (hostConfig : HostConfig)
    (networkingConfig : NetworkingConfig) (name : string) (d : state)
  : state * (ContainerCreateCreatedBody + error) :=
  match tick d with
  | None => (d, inr unavailable)
  | Some d' =>
      let id := fresh_id (created d') in
      (mkState (containers d' ++
                  [mkContainer id (Config_Image config) (EndpointsConfig networkingConfig)])
               (S (created d')) (fuse d'),
       inl (mkCreated id []))
  end.

Definition touch (id : string) (d : state) : state * option error :=
  match tick d with
  | None => (d, Some unavailable)
  | Some d' =>
      match lookup id d' with
      | None => (d', Some no_such_container)
      | Some _ => (d', None)
      end
  end.

Definition wait (id : string) (condition : WaitCondition) (d : state)
  : state * wait_result :=
  match lookup id d with
  | None => (d, WaitError no_such_container)
  | Some _ => (d, WaitOK 0)
  end.

Definition remove (id : string) (d : state) : state * option error :=
  match tick d with
  | None => (d, Some unavailable)
  | Some d' =>
      match lookup id d' with
      | None => (d', Some no_such_container)
      | Some _ =>
          (mkState (filter (fun c => negb (String.eqb (ID c) id)) (containers d'))
                   (created d') (fuse d'),
           None)
      end
  end.

Definition client : Client :=
  mkClient state listing inspect create touch touch wait remove.

Definition bridge (ip : string) : EndpointsMap := [("bridge", mkEndpoint "net-0" ip)].

Definition app1 : Container := mkContainer "a1" "app:v1" (bridge "10.0.0.1").
Definition app2 : Container := mkContainer "a2" "app:v1" (bridge "10.0.0.2").
Definition app3 : Container := mkContainer "a3" "app:v1" (bridge "10.0.0.3").
Definition db1 : Container := mkContainer "d1" "db:v2" (bridge "10.0.0.9").

(** A world over the daemon [d]: nothing called or logged yet, a generator
    that counts up from its seed, the default seed. *)
Definition world (d : state) : World client :=
  mkWorld (cl:=client) d [] [] (fun seed k => seed + Z.of_nat k) 1 0%nat 1600000000.

Definition fleet : state := mkState [app1; db1; app2; app3] 0 None.

(** The same world with a generator stuck on one value. *)
Definition stuck_world (d : state) (raw : Z) : World client :=
  mkWorld (cl:=client) d [] [] (fun _ _ => raw) 1 0%nat 1600000000.

End Fake.

(** A string free of the separator. *)
Fixpoint free_of (sep : ascii) (s : string) : bool :=
  match s with
  | EmptyString => true
  | String c rest => negb (Ascii.eqb c sep) && free_of sep rest
  end.

(** The cutoff of [ParseUint] in base 10. *)
Definition cutoff10 : Z := (uint64_mod - 1) / 10 + 1.

(** [calls] is the beginning of [whole]. *)
Definition prefix_of (calls whole : list call) : Prop :=
  exists rest, whole = calls ++ rest.

(** What a loop of [k] replications may do after the inspection: all [k]
    creations and starts, or fewer of them followed by the creation or the
    start that failed, with the error that reports it. *)
Inductive copy_result (create : call) (k : nat) : list call -> outcome (option error) -> Prop :=
| copy_all (ids : list string) :
    List.length ids = k ->
    copy_result create k (replications create ids) (Done None)
| copy_create_failed (ids : list string) (err : error) :
    (List.length ids < k)%nat ->
    copy_result create k (replications create ids ++ [create])
                (Done (Some (Errorf_w "could not create container: %w" [] err)))
| copy_start_failed (ids : list string) (id : string) (err : error) :
    (List.length ids < k)%nat ->
    copy_result create k (replications create ids ++ [create; CStart id])
                (Done (Some (Errorf_w "could not start container id %s: %w" [AStr id] err))).

(** The world in which [job] starts to replicate, after a listing that left
    the daemon in [d] and gave the candidates [pool]: the listing is in the
    trace, the candidates are logged, the generator is seeded from the clock
    and has drawn once. *)
Definition replication_world {cl} (w : World cl) (d : daemon cl) (pool : list Container)
  : World cl :=
  mkWorld d (trace w ++ [CList])
          (logs w ++ map (fun c => mkEntry DebugLevel
                                           [("container", ID c); ("image", Image c)]
                                           "found container") pool)
          (generator w) (clock w) 1%nat (clock w).

(** The reading of replication in which the one inspection yields all that
    a creation is given: every creation made by [copyContainer] carries the
    inspected configuration, host configuration and endpoint bindings. *)
Definition creations_from_inspection {cl} (c : Container) (n : Z) (w : World cl) : Prop :=
  forall d infos,
    ContainerInspect cl (ID c) (dk w) = (d, inl infos) ->
    forall config hostConfig networkingConfig name,
      In (CCreate config hostConfig networkingConfig name)
         (trace (fst (copyContainer c n w))) ->
      config = JSON_Config infos /\
      hostConfig = JSON_HostConfig infos /\
      EndpointsConfig networkingConfig = JSON_Networks infos.

(** A listing entry of container a1 taken before its address changed. *)
Definition stale_app1 : Container := mkContainer "a1" "app:v1" (Fake.bridge "10.0.0.77").

(** ** The rest of the program: rendering and the loop of [main] *)

Module fmt.

(** The character of a decimal digit. *)
Definition digit_char (d : Z) : ascii := ascii_of_N (Z.to_N (48 + d)).

(** The decimal digits of [n] written in front of [acc], lowest digit first
    to be produced; [fuel] bounds the number of digits. *)
Fixpoint format_digits (fuel : nat) (n : Z) (acc : string) : string :=
  match fuel with
  | O => acc
  | S fuel' =>
      let acc' := String (digit_char (n mod 10)) acc in
      if n <? 10 then acc' else format_digits fuel' (n / 10) acc'
  end.

(** The verb [%v] on a [uint64]: its decimal numeral, of at most 20 digits. *)
Definition FormatUint (n : Z) : string := format_digits 20 n "".

End fmt.

(** [func (r *RatioValue) String() string]. *)
Definition RatioValue_String (r : RatioValue) : string :=
  if (Up r =? 0) || (Down r =? 0) then "1:1"
  else (fmt.FormatUint (Up r) ++ ":" ++ fmt.FormatUint (Down r))%string.

(** [func (r *RatioValue) Type() string]. *)
Definition RatioValue_Type (r : RatioValue) : string := "ratio".

(** What the [select] of [main] receives: the timer of [time.After] or a
    signal. *)
Inductive event : Type :=
| Tick
| Interrupt.

(** Where the loop of [main] stands when the events known so far are used
    up: it has returned, or it is waiting in its [select]. *)
Inductive loop_state : Type :=
| Returned
| Waiting.

Section Loop.

Context {cl : Client}.

(** The text of an error in the log, the [Error()] of Go. *)
Variable error_text : error -> string.

(** The loop of [main], lines 172-182, over the events its [select]
    receives. *)
Fixpoint main_loop (image : string) (ratio : RatioValue) (events : list event)
  : M cl loop_state :=
  match events with
  | [] => ret Waiting
  | Tick :: rest =>
      r <- job image ratio ;;
      match r with
      | Some err => logrus ErrorLevel [("error", error_text err)] "job failed"
      | None => ret tt
      end ;;;
      main_loop image ratio rest
  | Interrupt :: _ =>
      logrus InfoLevel [] "received stop signal" ;;;
      ret Returned
  end.

End Loop.

(** The ticks the loop serves: those before the first signal. *)
Fixpoint ticks_served (events : list event) : nat :=
  match events with
  | [] => 0
  | Tick :: rest => S (ticks_served rest)
  | Interrupt :: _ => 0
  end.

(** The kinds of calls. *)
Definition listing_call (c : call) : bool :=
  match c with CList => true | _ => false end.

Definition replication_call (c : call) : bool :=
  match c with CInspect _ | CCreate _ _ _ _ | CStart _ => true | _ => false end.

Definition teardown_call (c : call) : bool :=
  match c with CStop _ | CWait _ _ | CRemove _ => true | _ => false end.

(** The errors [job] builds. *)
Inductive job_error : error -> Prop :=
| job_error_list (err : error) :
    job_error (Errorf_w "could not get the list of containers: %w" [] err)
| job_error_inspect (id : string) (err : error) :
    job_error (Errorf_w "could not inspect container id %s: %w" [AStr id] err)
| job_error_create (err : error) :
    job_error (Errorf_w "could not create container: %w" [] err)
| job_error_start (id : string) (err : error) :
    job_error (Errorf_w "could not start container id %s: %w" [AStr id] err)
| job_error_count (n size : Z) :
    job_error (Errorf "can not delete %v containers when exists only %v"
                      [AUint n; AInt size])
| job_error_stop (id : string) (err : error) :
    job_error (Errorf_w "could not stop container id: %s: %w" [AStr id] err)
| job_error_remove (id : string) (err : error) :
    job_error (Errorf_w "could not remove container id  %s: %w" [AStr id] err).

(** What the loop of [deleteContainer] may do with the containers it draws:
    tear all of them down, or tear some down and end on the stop that
    failed, on the wait that never answers, or on the removal that failed. *)
Inductive delete_result (victims : list Container)
  : list call -> outcome (option error) -> Prop :=
| delete_all :
    delete_result victims (flat_map teardown victims) (Done None)
| delete_stop_failed (torn : list Container) (victim : Container)
                     (rest : list Container) (err : error) :
    victims = torn ++ victim :: rest ->
    delete_result victims
      (flat_map teardown torn ++ [CStop (ID victim)])
      (Done (Some (Errorf_w "could not stop container id: %s: %w"
                            [AStr (ID victim)] err)))
| delete_wait_blocked (torn : list Container) (victim : Container)
                      (rest : list Container) :
    victims = torn ++ victim :: rest ->
    delete_result victims
      (flat_map teardown torn ++
       [CStop (ID victim); CWait (ID victim) WaitConditionNotRunning])
      Blocked
| delete_remove_failed (torn : list Container) (victim : Container)
                       (rest : list Container) (err : error) :
    victims = torn ++ victim :: rest ->
    delete_result victims
      (flat_map teardown torn ++ teardown victim)
      (Done (Some (Errorf_w "could not remove container id  %s: %w"
                            [AStr (ID victim)] err))).

(** A driver every call to which succeeds, whatever its state. *)
Definition obliging (cl : Client) : Prop :=
  (forall id d, exists infos, snd (ContainerInspect cl id d) = inl infos) /\
  (forall config hostConfig networkingConfig name d,
     exists body,
       snd (ContainerCreate cl config hostConfig networkingConfig name d) = inl body) /\
  (forall id d, snd (ContainerStart cl id d) = None) /\
  (forall id d, snd (ContainerStop cl id d) = None) /\
  (forall id condition d, exists code, snd (ContainerWait cl id condition d) = WaitOK code) /\
  (forall id d, snd (ContainerRemove cl id d) = None).

(** Two worlds with the same generator, in the same state, and the same
    clock. *)
Definition same_rng {cl} (w w' : World cl) : Prop :=
  generator w' = generator w /\ rng_seed w' = rng_seed w /\
  rng_pos w' = rng_pos w /\ clock w' = clock w.

(** Two more daemons. *)
Module Daemons.

(** A daemon that removes a container as soon as it is stopped, as for a
    container started with the auto-remove option. *)
Definition autoremove : Client :=
  mkClient Fake.state Fake.listing Fake.inspect Fake.create Fake.touch
           Fake.remove Fake.wait Fake.remove.

(** A daemon that grants every call; its state counts the containers it
    has created. *)
Definition granting : Client :=
  mkClient nat
    (fun d => (d, inl [Fake.app1; Fake.app2]))
    (fun id d => (d, inl (mkContainerJSON (mkConfig "app:v1" ["serve"])
                                          (mkHostConfig false "default")
                                          (Fake.bridge "10.0.0.1"))))
    (fun _ _ _ _ d => (S d, inl (mkCreated (Fake.fresh_id d) [])))
    (fun _ d => (d, None))
    (fun _ d => (d, None))
    (fun _ _ d => (d, WaitOK 0))
    (fun _ d => (d, None)).

Definition granting_world : World granting :=
  mkWorld (cl:=granting) 0%nat [] [] (fun seed k => seed + Z.of_nat k) 1 0%nat 1600000000.

Definition autoremove_world : World autoremove :=
  mkWorld (cl:=autoremove) Fake.fleet [] [] (fun seed k => seed + Z.of_nat k) 1 0%nat
          1600000000.

End Daemons.

(** ** Runs told by the answers of the driver *)

Section Answers.

Context {cl : Client}.

(** [replicated config hostConfig networkConfig k d d' calls r]: from the
    daemon [d], a loop of [k] replications makes the calls [calls], leaves the
    daemon in [d'] and ends as [r].  Each turn creates a container and starts
    the container the creation answered with; the loop goes on while both
    succeed and ends on the first answer that is an error, with that error
    wrapped. *)
Inductive replicated (config : Config) (hostConfig : HostConfig)
    (networkConfig : NetworkingConfig)
  : nat -> daemon cl -> daemon cl -> list call -> outcome (option error) -> Prop :=
| replicated_all (d : daemon cl) :
    replicated config hostConfig networkConfig 0 d d [] (Done None)
| replicated_next (k : nat) (d d1 d2 d' : daemon cl)
                  (body : ContainerCreateCreatedBody)
                  (calls : list call) (r : outcome (option error)) :
    ContainerCreate cl config hostConfig networkConfig "" d = (d1, inl body) ->
    ContainerStart cl (Created_ID body) d1 = (d2, None) ->
    replicated config hostConfig networkConfig k d2 d' calls r ->
    replicated config hostConfig networkConfig (S k) d d'
               (CCreate config hostConfig networkConfig ""
                  :: CStart (Created_ID body) :: calls) r
| replicated_create_failed (k : nat) (d d1 : daemon cl) (err : error) :
    ContainerCreate cl config hostConfig networkConfig "" d = (d1, inr err) ->
    replicated config hostConfig networkConfig (S k) d d1
               [CCreate config hostConfig networkConfig ""]
               (Done (Some (Errorf_w "could not create container: %w" [] err)))
| replicated_start_failed (k : nat) (d d1 d2 : daemon cl)
                          (body : ContainerCreateCreatedBody) (err : error) :
    ContainerCreate cl config hostConfig networkConfig "" d = (d1, inl body) ->
    ContainerStart cl (Created_ID body) d1 = (d2, Some err) ->
    replicated config hostConfig networkConfig (S k) d d2
               [CCreate config hostConfig networkConfig ""; CStart (Created_ID body)]
               (Done (Some (Errorf_w "could not start container id %s: %w"
                                     [AStr (Created_ID body)] err))).

(** [destroyed victims d d' calls r]: from the daemon [d], tearing down
    [victims] in order makes the calls [calls], leaves the daemon in [d'] and
    ends as [r].  Each container is stopped, waited for and removed; the run
    goes on while the three succeed, ends on a failed stop or removal with
    that error wrapped, and never ends after a wait that fails. *)
Inductive destroyed
  : list Container -> daemon cl -> daemon cl -> list call ->
    outcome (option error) -> Prop :=
| destroyed_all (d : daemon cl) : destroyed [] d d [] (Done None)
| destroyed_next (victim : Container) (victims : list Container)
                 (d d1 d2 d3 d' : daemon cl) (code : Z)
                 (calls : list call) (r : outcome (option error)) :
    ContainerStop cl (ID victim) d = (d1, None) ->
    ContainerWait cl (ID victim) WaitConditionNotRunning d1 = (d2, WaitOK code) ->
    ContainerRemove cl (ID victim) d2 = (d3, None) ->
    destroyed victims d3 d' calls r ->
    destroyed (victim :: victims) d d' (teardown victim ++ calls) r
| destroyed_stop_failed (victim : Container) (victims : list Container)
                        (d d1 : daemon cl) (err : error) :
    ContainerStop cl (ID victim) d = (d1, Some err) ->
    destroyed (victim :: victims) d d1 [CStop (ID victim)]
              (Done (Some (Errorf_w "could not stop container id: %s: %w"
                                    [AStr (ID victim)] err)))
| destroyed_wait_failed (victim : Container) (victims : list Container)
                        (d d1 d2 : daemon cl) (err : error) :
    ContainerStop cl (ID victim) d = (d1, None) ->
    ContainerWait cl (ID victim) WaitConditionNotRunning d1 = (d2, WaitError err) ->
    destroyed (victim :: victims) d d2
              [CStop (ID victim); CWait (ID victim) WaitConditionNotRunning]
              Blocked
| destroyed_remove_failed (victim : Container) (victims : list Container)
                          (d d1 d2 d3 : daemon cl) (code : Z) (err : error) :
    ContainerStop cl (ID victim) d = (d1, None) ->
    ContainerWait cl (ID victim) WaitConditionNotRunning d1 = (d2, WaitOK code) ->
    ContainerRemove cl (ID victim) d2 = (d3, Some err) ->
    destroyed (victim :: victims) d d3 (teardown victim)
              (Done (Some (Errorf_w "could not remove container id  %s: %w"
                                    [AStr (ID victim)] err))).

End Answers.

(** ** The chances of the draws *)

(** The positions in [pool] that [n] successive draws pick, when [g] gives
    the raw values of the generator and [pos] is the next one to use. *)
Fixpoint draw_indices (pool : list Container) (g : nat -> Z) (pos n : nat) : list nat :=
  match n with
  | O => []
  | S k => Z.to_nat (g pos mod len pool) :: draw_indices pool g (S pos) k
  end.

(** All the results that [n] calls of [rand.Intn(m)] can give: the
    sequences of [n] numbers below [m].  The generator makes each call uniform
    over the numbers below [m] and the calls independent, so these sequences
    are equally likely. *)
Fixpoint sequences (m n : nat) : list (list nat) :=
  match n with
  | O => [[]]
  | S k => flat_map (fun d => map (cons d) (sequences m k)) (seq 0 m)
  end.

(** The generator whose values from [pos] on are [raws]. *)
Definition replay (raws : list nat) (pos : nat) : nat -> Z :=
  fun k => Z.of_nat (nth (k - pos) raws 0%nat).

(** The positions the draws of [deleteContainer] pick from world [w] when
    the calls of the generator give [raws]. *)
Definition positions_drawn {cl} (pool : list Container) (w : World cl) (n : nat)
    (raws : list nat) : list nat :=
  draw_indices pool (replay raws (rng_pos w)) (rng_pos w) n.

(** * Properties *)

(** ** Splitting and parsing *)

Section Parsing.

Import RatioSyntax.

Lemma Split_nonempty (s : string) (sep : ascii) : strings.Split s sep <> [].
Proof.
  destruct s as [|c rest]; simpl; [discriminate|].
  destruct (Ascii.eqb c sep); [discriminate|].
  destruct (strings.Split rest sep); discriminate.
Qed.

Lemma Split_free (s : string) (sep : ascii) :
  free_of sep s = true -> strings.Split s sep = [s].
Proof.
  induction s as [|c rest IH]; simpl; intros H; [reflexivity|].
  apply andb_true_iff in H as [Hc Hrest].
  apply negb_true_iff in Hc. rewrite Hc, (IH Hrest). reflexivity.
Qed.

Lemma Split_app (a b : string) (sep : ascii) :
  free_of sep a = true ->
  strings.Split (a ++ String sep b) sep = a :: strings.Split b sep.
Proof.
  induction a as [|c rest IH]; simpl; intros H.
  - rewrite Ascii.eqb_refl. reflexivity.
  - apply andb_true_iff in H as [Hc Hrest].
    apply negb_true_iff in Hc. rewrite Hc, (IH Hrest). reflexivity.
Qed.

Lemma Split_one (s b : string) (sep : ascii) :
  strings.Split s sep = [b] -> s = b /\ free_of sep b = true.
Proof.
  revert b. induction s as [|c rest IH]; simpl; intros b H.
  - inversion H. split; reflexivity.
  - destruct (Ascii.eqb c sep) eqn:Hc.
    + inversion H as [[Hb Hnil]]. now apply Split_nonempty in Hnil.
    + destruct (strings.Split rest sep) as [|t ts] eqn:Hs;
        [now apply Split_nonempty in Hs|].
      injection H as <- ->.
      destruct (IH t eq_refl) as [-> Hfree].
      split; [reflexivity|]. simpl. now rewrite Hc, Hfree.
Qed.

Lemma Split_two (s a b : string) (sep : ascii) :
  strings.Split s sep = [a; b] ->
  s = (a ++ String sep b)%string /\ free_of sep a = true /\ free_of sep b = true.
Proof.
  revert a. induction s as [|c rest IH]; simpl; intros a H.
  - discriminate.
  - destruct (Ascii.eqb c sep) eqn:Hc.
    + inversion H as [[Ha Hb]]. apply Split_one in Hb as [-> Hfree].
      apply Ascii.eqb_eq in Hc. subst c. repeat split; assumption.
    + destruct (strings.Split rest sep) as [|t ts] eqn:Hs;
        [now apply Split_nonempty in Hs|].
      injection H as <- ->.
      destruct (IH t eq_refl) as (-> & Ha & Hb).
      repeat split; [|assumption]. simpl. now rewrite Hc, Ha.
Qed.

(** The byte tests of [ParseUint] in base 10 accept exactly the ten
    digits, with their values. *)
Lemma digit_of_base10 (c : ascii) :
  match strconv.digit_of (strconv.byte_of c) with
  | Some d => if d >=? 10 then None else Some d
  | None => None
  end = digit_value c.
Proof.
  destruct c as [[] [] [] [] [] [] [] []]; reflexivity.
Qed.

Lemma digit_value_range (c : ascii) (d : Z) :
  digit_value c = Some d -> 0 <= d <= 9.
Proof.
  destruct c as [[] [] [] [] [] [] [] []]; simpl; intros H;
    try discriminate; inversion H; lia.
Qed.

Lemma digit_value_not_colon (c : ascii) (d : Z) :
  digit_value c = Some d -> Ascii.eqb c ":" = false.
Proof.
  destruct c as [[] [] [] [] [] [] [] []]; simpl; intros H;
    try discriminate; reflexivity.
Qed.

Lemma decimal_from_ge (t : string) :
  forall acc v, 0 <= acc -> decimal_from acc t = Some v -> acc <= v.
Proof.
  induction t as [|c rest IH]; simpl; intros acc v Hacc H.
  - inversion H. lia.
  - destruct (digit_value c) as [d|] eqn:Hd; [|discriminate].
    apply digit_value_range in Hd.
    apply IH in H; lia.
Qed.

Lemma decimal_from_free (t : string) :
  forall acc v, decimal_from acc t = Some v -> free_of ":" t = true.
Proof.
  induction t as [|c rest IH]; simpl; intros acc v H; [reflexivity|].
  destruct (digit_value c) as [d|] eqn:Hd; [|discriminate].
  rewrite (digit_value_not_colon _ _ Hd). simpl. eapply IH, H.
Qed.

(** The loop of [ParseUint] at 8 bits, from an accumulator that fits:
    either it ends on the number the digits write, which fits, or it fails
    with one of the two errors of [strconv]. *)
Lemma parse_digits_uint8 (s0 bs : string) :
  forall n, 0 <= n <= 255 ->
    match strconv.parse_digits s0 cutoff10 255 bs n with
    | (v, None) => decimal_from n bs = Some v /\ 0 <= v <= 255
    | (_, Some err) =>
        (forall v, decimal_from n bs = Some v -> 255 < v) /\
        (err = strconv.syntaxError "ParseUint" s0 \/
         err = strconv.rangeError "ParseUint" s0)
    end.
Proof.
  induction bs as [|c rest IH]; intros n Hn.
  - simpl. split; [reflexivity|lia].
  - cbn [strconv.parse_digits decimal_from].
    pose proof (digit_of_base10 c) as Hdig.
    destruct (strconv.digit_of (strconv.byte_of c)) as [d|].
    + destruct (d >=? 10) eqn:Hd10.
      * rewrite <- Hdig. split; [discriminate|left; reflexivity].
      * rewrite <- Hdig.
        assert (Hd : 0 <= d <= 9).
        { apply (digit_value_range c). now rewrite <- Hdig. }
        assert (Hcut : (n >=? cutoff10) = false).
        { unfold cutoff10, uint64_mod. rewrite Z.geb_leb. apply Z.leb_gt.
          change ((2 ^ 64 - 1) / 10 + 1) with 1844674407370955162. lia. }
        rewrite Hcut.
        assert (Hmul : to_uint64 (n * 10) = n * 10).
        { unfold to_uint64, uint64_mod. apply Z.mod_small.
          change (2 ^ 64) with 18446744073709551616. lia. }
        rewrite Hmul.
        assert (Hadd : to_uint64 (n * 10 + d) = n * 10 + d).
        { unfold to_uint64, uint64_mod. apply Z.mod_small.
          change (2 ^ 64) with 18446744073709551616. lia. }
        rewrite Hadd.
        destruct (n * 10 + d <? n * 10) eqn:Hlt; [apply Z.ltb_lt in Hlt; lia|].
        destruct (n * 10 + d >? 255) eqn:Hgt; cbn [orb].
        -- split; [|right; reflexivity].
           intros v Hv. apply decimal_from_ge in Hv; [|lia].
           apply Z.gtb_lt in Hgt. lia.
        -- apply IH. rewrite Z.gtb_ltb in Hgt. apply Z.ltb_ge in Hgt. lia.
    + rewrite <- Hdig. split; [discriminate|left; reflexivity].
Qed.

(** [ParseUint(t, 10, 8)] succeeds exactly on the unsigned decimal tokens
    that fit 8 bits, with their value. *)
Lemma ParseUint_uint8 (t : string) :
  match strconv.ParseUint t 8 with
  | (v, None) => uint8_token t v
  | (_, Some err) => (forall v, ~ uint8_token t v) /\ FormatError err
  end.
Proof.
  destruct t as [|c rest].
  - simpl. split; [|constructor].
    intros v [H _]. discriminate.
  - unfold strconv.ParseUint.
    change (to_uint64 (to_uint64 (Z.shiftl 1 8) - 1)) with 255.
    change ((uint64_mod - 1) / 10 + 1) with cutoff10.
    pose proof (parse_digits_uint8 (String c rest) (String c rest) 0 ltac:(lia)) as H.
    destruct (strconv.parse_digits _ _ _ _ _) as [v [err|]].
    + destruct H as [Hbig Herr]. split.
      * intros v' [Hv' Hr]. apply Hbig in Hv'. lia.
      * destruct Herr as [-> | ->]; constructor.
    + exact H.
Qed.

Lemma uint8_token_fun (t : string) (v v' : Z) :
  uint8_token t v -> uint8_token t v' -> v = v'.
Proof. intros [H _] [H' _]. congruence. Qed.

Lemma uint8_token_free (t : string) (v : Z) :
  uint8_token t v -> free_of ":" t = true.
Proof.
  intros [H _]. destruct t; [reflexivity|]. eapply decimal_from_free, H.
Qed.

Lemma Split_tokens (a b : string) (up down : Z) :
  uint8_token a up -> uint8_token b down ->
  strings.Split (a ++ ":" ++ b) ":" = [a; b].
Proof.
  intros Ha Hb. change (a ++ ":" ++ b)%string with (a ++ String ":" b)%string.
  rewrite Split_app by (eapply uint8_token_free, Ha).
  rewrite Split_free by (eapply uint8_token_free, Hb).
  reflexivity.
Qed.

(** [Set] against the syntax of the specification. *)
Lemma Set_well_formed (r : RatioValue) (s : string) :
  match RatioValue_Set r s with
  | (r', None) => well_formed s (Up r') (Down r')
  | (r', Some err) =>
      r' = r /\ FormatError err /\ forall up down, ~ well_formed s up down
  end.
Proof.
  unfold RatioValue_Set.
  destruct (strings.Split s ":") as [|v0 [|v1 [|v2 vs]]] eqn:Hs.
  - now apply Split_nonempty in Hs.
  - repeat split; [constructor|].
    intros up down (a & b & -> & Ha & Hb).
    rewrite (Split_tokens _ _ _ _ Ha Hb) in Hs. discriminate.
  - pose proof (ParseUint_uint8 v0) as H0.
    destruct (strconv.ParseUint v0 8) as [up [err|]].
    + destruct H0 as [Hno Herr]. repeat split; [assumption|].
      intros up' down' (a & b & -> & Ha & Hb).
      rewrite (Split_tokens _ _ _ _ Ha Hb) in Hs. injection Hs as -> ->.
      exact (Hno _ Ha).
    + pose proof (ParseUint_uint8 v1) as H1.
      destruct (strconv.ParseUint v1 8) as [down [err|]].
      * destruct H1 as [Hno Herr]. repeat split; [assumption|].
        intros up' down' (a & b & -> & Ha & Hb).
        rewrite (Split_tokens _ _ _ _ Ha Hb) in Hs. injection Hs as -> ->.
        exact (Hno _ Hb).
      * apply Split_two in Hs as (-> & _ & _).
        exists v0, v1. repeat split; try apply H0; apply H1.
  - repeat split; [constructor|].
    intros up down (a & b & -> & Ha & Hb).
    rewrite (Split_tokens _ _ _ _ Ha Hb) in Hs. discriminate.
Qed.

End Parsing.

(** ** The ratio *)

(** C7. [Set] fails exactly on the strings that are not two unsigned decimal
    integers of the range 0-255 around one colon; every failure is a format
    error; and on success the receiver holds the two integers. *)
Theorem Set_fails_exactly_off_syntax (r : RatioValue) (s : string) :
  (snd (RatioValue_Set r s) <> None <->
   ~ exists up down, RatioSyntax.well_formed s up down) /\
  (forall err, snd (RatioValue_Set r s) = Some err -> FormatError err) /\
  (forall up down, RatioSyntax.well_formed s up down ->
                   RatioValue_Set r s = (mkRatio up down, None)).
Proof.
  pose proof (Set_well_formed r s) as H.
  destruct (RatioValue_Set r s) as [r' [err|]] eqn:Hset; cbn [snd].
  - destruct H as (_ & Herr & Hno). repeat split.
    + intros _ (up & down & Hwf). exact (Hno _ _ Hwf).
    + discriminate.
    + intros e He. now inversion He; subst.
    + intros up down Hwf. destruct (Hno _ _ Hwf).
  - repeat split.
    + intros Hne. now destruct Hne.
    + intros Hno _. apply Hno. now exists (Up r'), (Down r').
    + discriminate.
    + intros up down (a & b & -> & Ha & Hb).
      destruct H as (a' & b' & Heq & Ha' & Hb').
      assert (Hs : [a; b] = [a'; b']).
      { rewrite <- (Split_tokens _ _ _ _ Ha Hb), Heq.
        exact (Split_tokens _ _ _ _ Ha' Hb'). }
      injection Hs as <- <-.
      rewrite (uint8_token_fun _ _ _ Ha Ha'), (uint8_token_fun _ _ _ Hb Hb').
      now destruct r'.
Qed.

(** C9. A call of [Set] that returns an error leaves the receiver as it was:
    [Up] and [Down] are assigned only after both tokens have parsed. *)
Theorem Set_failure_keeps_receiver (r r' : RatioValue) (s : string) (err : error) :
  RatioValue_Set r s = (r', Some err) ->
  r' = r /\ Up r' = Up r /\ Down r' = Down r.
Proof.
  unfold RatioValue_Set. intros H.
  assert (Hr : r' = r); [|now subst].
  destruct (strings.Split s ":") as [|v0 [|v1 [|v2 vs]]];
    try (now inversion H).
  destruct (strconv.ParseUint v0 8) as [up [e0|]]; [now inversion H|].
  destruct (strconv.ParseUint v1 8) as [down [e1|]]; [now inversion H|].
  discriminate.
Qed.

(** The first token parses, the second does not: the receiver keeps 7:9. *)
Lemma Set_failure_keeps_receiver_witness :
  fst (strconv.ParseUint "1" 8) = 1 /\
  snd (strconv.ParseUint "1" 8) = None /\
  RatioValue_Set (mkRatio 7 9) "1:x"
    = (mkRatio 7 9, Some (strconv.syntaxError "ParseUint" "x")) /\
  Up (mkRatio 7 9) = 7.
Proof.
  split; [reflexivity|]. split; [reflexivity|]. split; [reflexivity|].
  exact (proj1 (proj2 (Set_failure_keeps_receiver
                         (mkRatio 7 9) (mkRatio 7 9) "1:x"
                         (strconv.syntaxError "ParseUint" "x") eq_refl))).
Defined.

(** C4. The ratio the loop runs with is 1:1 when either side is zero and the
    ratio itself otherwise; the flag value 0:3 gives 1:1. *)
Theorem resolve_zero_coercion (r : RatioValue) :
  (Up r = 0 \/ Down r = 0 -> resolve r = mkRatio 1 1) /\
  (Up r <> 0 /\ Down r <> 0 -> resolve r = r) /\
  fst (RatioValue_Set (mkRatio 0 0) "0:3") = mkRatio 0 3 /\
  main_ratio (Some "0:3") = inl (mkRatio 1 1).
Proof.
  unfold resolve, RatioValue_isZero. repeat split.
  - intros [H | H]; rewrite H; [reflexivity|].
    now rewrite Z.eqb_refl, orb_true_r.
  - intros [Hu Hd]. apply Z.eqb_neq in Hu, Hd. now rewrite Hu, Hd.
Qed.

(** The ratio 0:3 has a zero side and becomes 1:1; 2:5 has none and stays. *)
Lemma resolve_zero_coercion_witness :
  resolve (mkRatio 0 3) = mkRatio 1 1 /\ resolve (mkRatio 2 5) = mkRatio 2 5.
Proof.
  split.
  - apply (proj1 (resolve_zero_coercion (mkRatio 0 3))). left. reflexivity.
  - apply (proj1 (proj2 (resolve_zero_coercion (mkRatio 2 5)))).
    split; discriminate.
Defined.

(** ** Running the program *)

Section Runs.

Context {cl : Client}.

(** A loop that only logs returns, and touches nothing but the log. *)
Lemma for_each_logrus {A} (xs : list A) (l : level)
    (fields : A -> list (string * string)) (msg : A -> string) (w : World cl) :
  for_each xs (fun x => logrus l (fields x) (msg x)) w
  = (mkWorld (dk w) (trace w)
             (logs w ++ map (fun x => mkEntry l (fields x) (msg x)) xs)
             (generator w) (rng_seed w) (rng_pos w) (clock w),
     Done tt).
Proof.
  revert w. induction xs as [|x rest IH]; intros w.
  - simpl. rewrite app_nil_r. now destruct w.
  - cbn [for_each map]. unfold bind at 1. unfold logrus at 1.
    rewrite IH. cbn. now rewrite <- app_assoc.
Qed.

(** An index in range picks an element, without a panic. *)
Lemma index_in_range {A} (xs : list A) (i : Z) (w : World cl) :
  0 <= i < len xs ->
  exists x, nth_error xs (Z.to_nat i) = Some x /\ In x xs /\
            index xs i w = (w, Done x).
Proof.
  unfold index, len. intros Hi.
  destruct (i <? 0) eqn:Hneg; [apply Z.ltb_lt in Hneg; lia|].
  destruct (i >=? Z.of_nat (List.length xs)) eqn:Hbig;
    [rewrite Z.geb_leb in Hbig; apply Z.leb_le in Hbig; lia|].
  cbn [orb].
  destruct (nth_error xs (Z.to_nat i)) as [x|] eqn:Hnth.
  - exists x. split; [reflexivity|]. split; [|reflexivity].
    eapply nth_error_In, Hnth.
  - apply nth_error_None in Hnth. lia.
Qed.

(** A computation that returns hands its value and world to what follows. *)
Lemma bind_done {A B} (m : M cl A) (k : A -> M cl B) (w w' : World cl) (a : A) :
  m w = (w', Done a) -> bind m k w = k a w'.
Proof. intros H. unfold bind. now rewrite H. Qed.

(** One turn of a counted loop. *)
Lemma iterate_step (k : nat) (i : Z) (body : Z -> M cl (option error)) (w : World cl) :
  iterate (S k) i body w
  = match body i w with
    | (w1, Done None) => iterate k (i + 1) body w1
    | (w1, Done (Some err)) => (w1, Done (Some err))
    | (w1, Panic msg) => (w1, Panic msg)
    | (w1, Blocked) => (w1, Blocked)
    end.
Proof.
  cbn [iterate]. unfold bind.
  now destruct (body i w) as [w1 [[err|]|msg|]].
Qed.

(** The loop that collects the candidates is a filter on the image. *)
Lemma select_candidates_filter (containers : list Container) (image : string) :
  select_candidates containers image
  = filter (fun c => String.eqb (Image c) image) containers.
Proof.
  unfold select_candidates.
  enough (H : forall acc,
             fold_left (fun candidates container =>
                          if String.eqb (Image container) image
                          then candidates ++ [container] else candidates)
                       containers acc
             = acc ++ filter (fun c => String.eqb (Image c) image) containers)
    by apply (H []).
  induction containers as [|c rest IH]; intros acc; simpl.
  - now rewrite app_nil_r.
  - rewrite IH. destruct (String.eqb (Image c) image); [|reflexivity].
    now rewrite <- app_assoc.
Qed.

(** C8. The candidates are exactly the listed containers whose image is
    the configured string, in the order of the listing; and when there is
    none the step returns without an error after the listing, its only
    call to the driver. *)
Theorem job_selects_by_image (image : string) (ratio : RatioValue) (w : World cl)
    (d : daemon cl) (containers : list Container) :
  ContainerList cl (dk w) = (d, inl containers) ->
  select_candidates containers image
  = filter (fun c => String.eqb (Image c) image) containers /\
  (forall c, In c (select_candidates containers image) <->
             In c containers /\ Image c = image) /\
  (select_candidates containers image = [] ->
   job image ratio w = (called w d CList, Done None) /\
   trace (fst (job image ratio w)) = trace w ++ [CList]).
Proof.
  intros Hlist. split; [apply select_candidates_filter|]. split.
  - intros c. rewrite select_candidates_filter, filter_In, String.eqb_eq.
    reflexivity.
  - intros Hnone.
    assert (Hjob : job image ratio w = (called w d CList, Done None)).
    { unfold job, bind, client_ContainerList. rewrite Hlist, Hnone.
      reflexivity. }
    split; [exact Hjob|]. now rewrite Hjob.
Qed.

End Runs.

(** The fleet holds no container of image app:v9: the step lists and
    returns. *)
Lemma job_selects_by_image_witness :
  select_candidates [Fake.app1; Fake.db1; Fake.app2; Fake.app3] "db:v2" = [Fake.db1] /\
  job "app:v9" (mkRatio 2 1) (Fake.world Fake.fleet)
  = (called (Fake.world Fake.fleet) Fake.fleet CList, Done None).
Proof.
  split; [reflexivity|].
  exact (proj1 (proj2 (proj2 (job_selects_by_image
                                "app:v9" (mkRatio 2 1) (Fake.world Fake.fleet)
                                Fake.fleet [Fake.app1; Fake.db1; Fake.app2; Fake.app3]
                                eq_refl)) eq_refl)).
Defined.

(** ** Replication *)

Section Replication.

Context {cl : Client}.

Variables (containerConfig : Config) (hostConfig : HostConfig)
          (networkConfig : NetworkingConfig).

Let create : call := CCreate containerConfig hostConfig networkConfig "".

(** One iteration creates and starts, or stops at the call that failed. *)
Lemma copy_once_run (w : World cl) :
  exists calls,
    trace (fst (copy_once containerConfig hostConfig networkConfig w)) = trace w ++ calls /\
    copy_result create 1 calls
                (snd (copy_once containerConfig hostConfig networkConfig w)).
Proof.
  unfold copy_once, bind, client_ContainerCreate.
  destruct (ContainerCreate cl containerConfig hostConfig networkConfig "" (dk w))
    as [d [createdBody|err]].
  - rewrite (for_each_logrus _ WarnLevel (fun _ => []) (fun warning => warning)).
    unfold logrus, client_ContainerStart. cbn.
    destruct (ContainerStart cl (Created_ID createdBody) d) as [d' [err|]]; cbn.
    + exists [create; CStart (Created_ID createdBody)].
      split; [now rewrite <- app_assoc|].
      apply (copy_start_failed create 1 []). simpl. lia.
    + exists [create; CStart (Created_ID createdBody)].
      split; [now rewrite <- app_assoc|].
      apply (copy_all create 1 [Created_ID createdBody]). reflexivity.
  - exists [create]. split; [reflexivity|].
    apply (copy_create_failed create 1 []). simpl. lia.
Qed.

Lemma copy_result_cons (k : nat) (id : string) (calls : list call)
    (r : outcome (option error)) :
  copy_result create k calls r ->
  copy_result create (S k) (create :: CStart id :: calls) r.
Proof.
  intros [ids Hlen | ids err Hlen | ids id' err Hlen].
  - apply (copy_all create (S k) (id :: ids)). simpl. now rewrite Hlen.
  - apply (copy_create_failed create (S k) (id :: ids)). simpl. lia.
  - apply (copy_start_failed create (S k) (id :: ids)). simpl. lia.
Qed.

Lemma copy_result_first (k : nat) (calls : list call) (err : error) :
  copy_result create 1 calls (Done (Some err)) ->
  copy_result create (S k) calls (Done (Some err)).
Proof.
  intros H. inversion H as [ids Hlen | ids e Hlen | ids id e Hlen]; subst.
  - destruct ids as [|x [|y ids]]; try (simpl in Hlen; lia).
    apply (copy_create_failed create (S k) []). simpl. lia.
  - destruct ids as [|x [|y ids]]; try (simpl in Hlen; lia).
    apply (copy_start_failed create (S k) []). simpl. lia.
Qed.

(** The loop of [copyContainer], by induction on the iterations left. *)
Lemma iterate_copy (k : nat) :
  forall (i : Z) (w : World cl),
  exists calls,
    trace (fst (iterate k i (fun _ => copy_once containerConfig hostConfig networkConfig) w))
    = trace w ++ calls /\
    copy_result create k calls
      (snd (iterate k i (fun _ => copy_once containerConfig hostConfig networkConfig) w)).
Proof.
  induction k as [|k IH]; intros i w.
  - exists []. split; [now rewrite app_nil_r|].
    apply (copy_all create 0 []). reflexivity.
  - rewrite iterate_step.
    destruct (copy_once_run w) as (calls & Htrace & Hres).
    destruct (copy_once containerConfig hostConfig networkConfig w) as [w1 r1].
    cbn [fst snd] in Htrace, Hres.
    destruct r1 as [[err|]|msg|]; try (now inversion Hres).
    + exists calls. split; [exact Htrace|]. now apply copy_result_first.
    + inversion Hres as [ids Hlen | |]; subst.
      destruct ids as [|id [|id' ids]]; try discriminate.
      destruct (IH (i + 1) w1) as (calls' & Htrace' & Hres').
      exists (create :: CStart id :: calls'). split.
      * rewrite Htrace', Htrace. cbn. now rewrite <- app_assoc.
      * now apply copy_result_cons.
Qed.

End Replication.

(** [copyContainer] always returns: it neither panics nor waits. *)
Lemma copyContainer_returns {cl : Client} (container : Container) (n : Z) (w : World cl) :
  exists r, snd (copyContainer container n w) = Done r.
Proof.
  unfold copyContainer, bind, client_ContainerInspect.
  destruct (ContainerInspect cl (ID container) (dk w)) as [d [infos|err]].
  - unfold for_uint64.
    destruct (iterate_copy (JSON_Config infos) (JSON_HostConfig infos)
                (mkNetworkingConfig (NetworkSettings_Networks container))
                (Z.to_nat n) 0 (called w d (CInspect (ID container))))
      as (calls & _ & Hres).
    destruct (snd (iterate (Z.to_nat n) 0 _ _)) as [r|msg|];
      [now exists r|inversion Hres|inversion Hres].
  - now eexists.
Qed.

Section ReplicationAnswers.

Context {cl : Client}.

Variables (containerConfig : Config) (hostConfig : HostConfig)
          (networkConfig : NetworkingConfig).

(** One iteration, by the answers of the driver: what it returns, where it
    leaves the daemon and what it called. *)
Lemma copy_once_answers (w : World cl) :
  match ContainerCreate cl containerConfig hostConfig networkConfig "" (dk w) with
  | (d1, inr err) =>
      exists w1,
        copy_once containerConfig hostConfig networkConfig w
        = (w1, Done (Some (Errorf_w "could not create container: %w" [] err))) /\
        dk w1 = d1 /\
        trace w1 = trace w ++ [CCreate containerConfig hostConfig networkConfig ""]
  | (d1, inl body) =>
      match ContainerStart cl (Created_ID body) d1 with
      | (d2, Some err) =>
          exists w1,
            copy_once containerConfig hostConfig networkConfig w
            = (w1, Done (Some (Errorf_w "could not start container id %s: %w"
                                        [AStr (Created_ID body)] err))) /\
            dk w1 = d2 /\
            trace w1 = trace w ++ [CCreate containerConfig hostConfig networkConfig "";
                                   CStart (Created_ID body)]
      | (d2, None) =>
          exists w1,
            copy_once containerConfig hostConfig networkConfig w = (w1, Done None) /\
            dk w1 = d2 /\
            trace w1 = trace w ++ [CCreate containerConfig hostConfig networkConfig "";
                                   CStart (Created_ID body)]
      end
  end.
Proof.
  unfold copy_once, bind, client_ContainerCreate.
  destruct (ContainerCreate cl containerConfig hostConfig networkConfig "" (dk w))
    as [d1 [body|err]].
  - rewrite (for_each_logrus _ WarnLevel (fun _ => []) (fun warning => warning)).
    unfold logrus, client_ContainerStart. cbn.
    destruct (ContainerStart cl (Created_ID body) d1) as [d2 [err|]]; cbn;
      eexists; (split; [reflexivity|]); cbn; (split; [reflexivity|]);
      now rewrite <- app_assoc.
  - eexists. split; [reflexivity|]. now split.
Qed.

(** The loop of [copyContainer], by the answers of the driver. *)
Lemma iterate_replicated (k : nat) :
  forall (i : Z) (w : World cl),
  exists calls,
    replicated containerConfig hostConfig networkConfig k (dk w)
      (dk (fst (iterate k i (fun _ => copy_once containerConfig hostConfig networkConfig) w)))
      calls
      (snd (iterate k i (fun _ => copy_once containerConfig hostConfig networkConfig) w)) /\
    trace (fst (iterate k i (fun _ => copy_once containerConfig hostConfig networkConfig) w))
    = trace w ++ calls.
Proof.
  induction k as [|k IH]; intros i w.
  - exists []. cbn. rewrite app_nil_r. split; [constructor|reflexivity].
  - rewrite iterate_step. pose proof (copy_once_answers w) as Hone.
    destruct (ContainerCreate cl containerConfig hostConfig networkConfig "" (dk w))
      as [d1 [body|err]] eqn:Hcreate.
    + destruct (ContainerStart cl (Created_ID body) d1) as [d2 [err|]] eqn:Hstart;
        destruct Hone as (w1 & -> & Hdk & Htrace).
      * exists [CCreate containerConfig hostConfig networkConfig "";
                CStart (Created_ID body)].
        cbn [fst snd]. rewrite Hdk. split; [|exact Htrace].
        now apply replicated_start_failed with (d1 := d1).
      * destruct (IH (i + 1) w1) as (calls & Hrun & Htrace').
        exists (CCreate containerConfig hostConfig networkConfig ""
                  :: CStart (Created_ID body) :: calls).
        split.
        -- apply replicated_next with (d1 := d1) (d2 := d2); try assumption.
           now rewrite <- Hdk.
        -- rewrite Htrace', Htrace, <- app_assoc. reflexivity.
    + destruct Hone as (w1 & -> & Hdk & Htrace).
      exists [CCreate containerConfig hostConfig networkConfig ""].
      cbn [fst snd]. rewrite Hdk. split; [|exact Htrace].
      now apply replicated_create_failed.
Qed.

End ReplicationAnswers.

(** C5. [copyContainer] inspects the template once, first.  When the
    inspection fails that is its only call and its error is returned, wrapped.
    Otherwise every creation is given the inspected configuration and host
    configuration and the endpoint bindings of the template as it was passed
    in, and the loop runs as the driver answers: each of its [n] turns creates
    a container and starts the container that creation answered with; it goes
    on while both succeed, and at the first creation or start that fails it
    returns that error, wrapped, and calls nothing more: nothing is stopped or
    removed. *)
Theorem copyContainer_inspects_once {cl : Client} (container : Container) (n : Z)
    (w : World cl) :
  match ContainerInspect cl (ID container) (dk w) with
  | (d, inr err) =>
      copyContainer container n w
      = (called w d (CInspect (ID container)),
         Done (Some (Errorf_w "could not inspect container id %s: %w"
                              [AStr (ID container)] err)))
  | (d, inl infos) =>
      exists calls,
        replicated (JSON_Config infos) (JSON_HostConfig infos)
                   (mkNetworkingConfig (NetworkSettings_Networks container))
                   (Z.to_nat n) d
                   (dk (fst (copyContainer container n w)))
                   calls
                   (snd (copyContainer container n w)) /\
        trace (fst (copyContainer container n w))
        = trace w ++ CInspect (ID container) :: calls
  end.
Proof.
  unfold copyContainer, bind, client_ContainerInspect.
  destruct (ContainerInspect cl (ID container) (dk w)) as [d [infos|err]].
  - unfold for_uint64.
    destruct (iterate_replicated (JSON_Config infos) (JSON_HostConfig infos)
                (mkNetworkingConfig (NetworkSettings_Networks container))
                (Z.to_nat n) 0 (called w d (CInspect (ID container))))
      as (calls & Hrun & Htrace).
    exists calls. split; [exact Hrun|].
    rewrite Htrace. cbn. now rewrite <- app_assoc.
  - reflexivity.
Qed.

(** The endpoint bindings of a creation are those of the listing entry, not
    those the inspection returns: with an entry older than the daemon's
    state the two differ. *)
Lemma copyContainer_bindings_not_inspected :
  ~ creations_from_inspection stale_app1 1 (Fake.world Fake.fleet).
Proof.
  intros H.
  destruct (H Fake.fleet
              (mkContainerJSON (mkConfig "app:v1" ["serve"])
                               (mkHostConfig false "default")
                               (Fake.bridge "10.0.0.1"))
              eq_refl
              (mkConfig "app:v1" ["serve"]) (mkHostConfig false "default")
              (mkNetworkingConfig (Fake.bridge "10.0.0.77")) "")
    as (_ & _ & Hnet).
  - right. left. reflexivity.
  - discriminate Hnet.
Qed.

(** C3. With a count of zero [copyContainer] still inspects the template,
    its one call, and returns the error of that inspection if there is one;
    it creates and starts nothing.  [deleteContainer] with a count of zero
    calls nothing, changes nothing and returns no error. *)
Theorem zero_count_calls {cl : Client} (container : Container)
    (candidates : list Container) (w : World cl) :
  copyContainer container 0 w
  = (let (d, r) := ContainerInspect cl (ID container) (dk w) in
     (called w d (CInspect (ID container)),
      Done match r with
           | inl _ => None
           | inr err => Some (Errorf_w "could not inspect container id %s: %w"
                                       [AStr (ID container)] err)
           end)) /\
  deleteContainer candidates 0 w = (w, Done None).
Proof.
  split.
  - unfold copyContainer, bind, client_ContainerInspect.
    now destruct (ContainerInspect cl (ID container) (dk w)) as [d [infos|err]].
  - unfold deleteContainer.
    assert (H : (to_int 0 >? len candidates) = false).
    { change (to_int 0) with 0. unfold len. rewrite Z.gtb_ltb. apply Z.ltb_ge. lia. }
    now rewrite H.
Qed.

(** A replication of zero copies calls the driver, and fails when that call
    does. *)
Lemma copyContainer_zero_not_noop :
  trace (fst (copyContainer Fake.app1 0 (Fake.world Fake.fleet))) = [CInspect "a1"] /\
  copyContainer Fake.app1 0 (Fake.world Fake.fleet) <> (Fake.world Fake.fleet, Done None) /\
  snd (copyContainer Fake.app1 0 (Fake.world (Fake.mkState [Fake.app1] 0 (Some 0%nat))))
  = Done (Some (Errorf_w "could not inspect container id %s: %w"
                         [AStr "a1"] Fake.unavailable)).
Proof.
  split; [reflexivity|]. split; [discriminate|reflexivity].
Qed.

(** ** Destruction *)

Section Destruction.

Context {cl : Client}.

Variable candidates : list Container.

Lemma prefix_of_nil (whole : list call) : prefix_of [] whole.
Proof. now exists whole. Qed.

Lemma prefix_of_refl (whole : list call) : prefix_of whole whole.
Proof. exists []. now rewrite app_nil_r. Qed.

Lemma prefix_of_extend (calls whole more : list call) :
  prefix_of calls whole -> prefix_of calls (whole ++ more).
Proof. intros [rest ->]. exists (rest ++ more). now rewrite app_assoc. Qed.

Lemma prefix_of_app (done calls whole : list call) :
  prefix_of calls whole -> prefix_of (done ++ calls) (done ++ whole).
Proof. intros [rest ->]. exists rest. now rewrite app_assoc. Qed.

(** Every draw over a pool that is not empty picks one of its members. *)
Lemma drawn_from_members (g : nat -> Z) (n : nat) :
  candidates <> [] ->
  forall pos,
    List.length (drawn_from candidates g pos n) = n /\
    Forall (fun victim => In victim candidates) (drawn_from candidates g pos n).
Proof.
  intros Hpool. induction n as [|k IH]; intros pos; cbn [drawn_from].
  - split; [reflexivity|constructor].
  - assert (Hlen : 0 < len candidates).
    { unfold len. destruct candidates; [contradiction|simpl; lia]. }
    pose proof (Z.mod_pos_bound (g pos) (len candidates) Hlen) as Hk.
    destruct (nth_error candidates (Z.to_nat (g pos mod len candidates)))
      as [victim|] eqn:Hnth.
    + destruct (IH (S pos)) as [IHlen IHall]. split.
      * simpl. now rewrite IHlen.
      * constructor; [eapply nth_error_In, Hnth|exact IHall].
    + apply nth_error_None in Hnth. unfold len in *. lia.
Qed.

(** One iteration: a draw over the whole pool, then the teardown of the
    container drawn, as far as the driver lets it go. *)
Lemma delete_once_run (w : World cl) :
  candidates <> [] ->
  exists victim calls,
    drawn candidates w 1 = [victim] /\
    trace (fst (delete_once candidates w)) = trace w ++ calls /\
    prefix_of calls (teardown victim) /\
    (snd (delete_once candidates w) = Done None -> calls = teardown victim) /\
    (forall msg, snd (delete_once candidates w) <> Panic msg) /\
    generator (fst (delete_once candidates w)) = generator w /\
    rng_seed (fst (delete_once candidates w)) = rng_seed w /\
    rng_pos (fst (delete_once candidates w)) = S (rng_pos w).
Proof.
  intros Hpool.
  assert (Hlen : 0 < len candidates).
  { unfold len. destruct candidates; [contradiction|simpl; lia]. }
  pose proof (Z.mod_pos_bound (generator w (rng_seed w) (rng_pos w))
                              (len candidates) Hlen) as Hk.
  unfold delete_once, bind, rand_Intn.
  destruct (len candidates <=? 0) eqn:Hle; [apply Z.leb_le in Hle; lia|].
  match goal with
  | |- context [index candidates ?k ?w1] =>
      destruct (index_in_range candidates k w1 Hk) as (victim & Hnth & _ & ->)
  end.
  exists victim.
  assert (Hdrawn : drawn candidates w 1 = [victim]).
  { unfold drawn. cbn [drawn_from]. now rewrite Hnth. }
  unfold client_ContainerStop, client_ContainerWait_ready, client_ContainerRemove,
    logrus. cbn.
  destruct (ContainerStop cl (ID victim) (dk w)) as [d1 [err|]]; cbn.
  { exists [CStop (ID victim)]. repeat split; try discriminate; try assumption.
    now exists [CWait (ID victim) WaitConditionNotRunning; CRemove (ID victim)]. }
  destruct (ContainerWait cl (ID victim) WaitConditionNotRunning d1)
    as [d2 [code|err]]; cbn.
  2:{ exists [CStop (ID victim); CWait (ID victim) WaitConditionNotRunning].
      repeat split; try discriminate; try assumption.
      - now rewrite <- app_assoc.
      - now exists [CRemove (ID victim)]. }
  destruct (ContainerRemove cl (ID victim) d2) as [d3 [err|]]; cbn;
    exists (teardown victim); repeat split; try discriminate; try assumption;
    try (now rewrite <- !app_assoc); apply prefix_of_refl.
Qed.

(** The loop of [deleteContainer], by induction on the iterations left. *)
Lemma iterate_delete (k : nat) :
  candidates <> [] ->
  forall (i : Z) (w : World cl),
  exists calls,
    trace (fst (iterate k i (fun _ => delete_once candidates) w)) = trace w ++ calls /\
    prefix_of calls (flat_map teardown (drawn candidates w k)) /\
    (snd (iterate k i (fun _ => delete_once candidates) w) = Done None ->
     calls = flat_map teardown (drawn candidates w k)) /\
    (forall msg, snd (iterate k i (fun _ => delete_once candidates) w) <> Panic msg).
Proof.
  intros Hpool. induction k as [|k IH]; intros i w.
  - exists []. cbn. rewrite app_nil_r.
    repeat split; try discriminate. apply prefix_of_nil.
  - rewrite iterate_step.
    destruct (delete_once_run w Hpool)
      as (victim & calls & Hdrawn & Htrace & Hpre & Hall & Hpanic & Hg & Hs & Hp).
    assert (Hsplit : forall w1 : World cl, generator w1 = generator w -> rng_seed w1 = rng_seed w ->
                                rng_pos w1 = S (rng_pos w) ->
              drawn candidates w (S k) = victim :: drawn candidates w1 k).
    { intros w1 Hg1 Hs1 Hp1. unfold drawn in *. cbn [drawn_from] in *.
      rewrite app_nil_r in Hdrawn. now rewrite Hdrawn, Hg1, Hs1, Hp1. }
    destruct (delete_once candidates w) as [w1 r1]. cbn [fst snd] in *.
    rewrite (Hsplit w1 Hg Hs Hp). cbn [flat_map].
    destruct r1 as [[err|]|msg|].
    + exists calls. repeat split; try discriminate; try assumption.
      now apply prefix_of_extend.
    + destruct (IH (i + 1) w1) as (calls' & Htrace' & Hpre' & Hall' & Hpanic').
      exists (calls ++ calls'). rewrite (Hall eq_refl) in *. split.
      * now rewrite Htrace', Htrace, <- app_assoc.
      * split; [now apply prefix_of_app|]. split; [|assumption].
        intros Hdone. now rewrite (Hall' Hdone).
    + now destruct (Hpanic msg).
    + exists calls. repeat split; try discriminate; try assumption.
      now apply prefix_of_extend.
Qed.

(** A count that fits an [int] and does not exceed the pool passes the
    guard. *)
Lemma guard_passes (n : Z) :
  0 <= n <= len candidates -> len candidates < 2 ^ 63 ->
  (to_int n >? len candidates) = false.
Proof.
  intros Hn Hlen. unfold to_int, uint64_mod.
  change (2 ^ 64) with 18446744073709551616 in *.
  change (2 ^ 63) with 9223372036854775808 in *.
  rewrite Z.mod_small by lia. rewrite Z.gtb_ltb. apply Z.ltb_ge. lia.
Qed.

(** A count that fits an [int] and exceeds the pool is refused before any
    call. *)
Lemma deleteContainer_insufficient (n : Z) (w : World cl) :
  len candidates < n < 2 ^ 63 ->
  deleteContainer candidates n w
  = (w, Done (Some (Errorf "can not delete %v containers when exists only %v"
                           [AUint n; AInt (len candidates)]))).
Proof.
  intros Hn. unfold deleteContainer.
  assert (H : (to_int n >? len candidates) = true).
  { unfold to_int, uint64_mod, len in *.
    change (2 ^ 64) with 18446744073709551616 in *.
    change (2 ^ 63) with 9223372036854775808 in *.
    rewrite Z.mod_small by lia. rewrite Z.gtb_ltb. apply Z.ltb_lt. lia. }
  now rewrite H.
Qed.

(** Whatever the count, the calls of [deleteContainer] belong to teardowns
    of members of the pool it was given. *)
Lemma deleteContainer_targets (n : Z) (w : World cl) :
  exists calls,
    trace (fst (deleteContainer candidates n w)) = trace w ++ calls /\
    Forall (teardown_call_of candidates) calls.
Proof.
  unfold deleteContainer.
  destruct (to_int n >? len candidates).
  { exists []. split; [now rewrite app_nil_r|constructor]. }
  unfold for_uint64.
  destruct candidates as [|c0 rest] eqn:Hpool.
  - exists []. split; [|constructor]. rewrite app_nil_r.
    destruct (Z.to_nat n) as [|k]; [reflexivity|].
    rewrite iterate_step. reflexivity.
  - rewrite <- Hpool.
    assert (Hne : candidates <> []) by (rewrite Hpool; discriminate).
    destruct (iterate_delete (Z.to_nat n) Hne 0 w) as (calls & Htrace & Hpre & _ & _).
    exists calls. split; [exact Htrace|].
    destruct Hpre as [more Hpre].
    destruct (drawn_from_members (generator w (rng_seed w)) (Z.to_nat n) Hne (rng_pos w))
      as [_ Hmem].
    fold (drawn candidates w (Z.to_nat n)) in Hmem.
    assert (Hall : Forall (teardown_call_of candidates)
                          (flat_map teardown (drawn candidates w (Z.to_nat n)))).
    { apply Forall_forall. intros c Hc. apply in_flat_map in Hc as (victim & Hv & Hc).
      exists victim. split; [|exact Hc].
      rewrite Forall_forall in Hmem. now apply Hmem. }
    rewrite Hpre in Hall. now apply Forall_app in Hall.
Qed.

(** Any sequence of indices into the pool is the sequence of draws of some
    generator. *)
Lemma drawn_from_any (ds : list nat) :
  Forall (fun d => (d < List.length candidates)%nat) ds ->
  forall (g : nat -> Z) (pos : nat),
    (forall i, (i < List.length ds)%nat -> g (pos + i)%nat = Z.of_nat (nth i ds 0%nat)) ->
    map Some (drawn_from candidates g pos (List.length ds)) = map (nth_error candidates) ds.
Proof.
  induction 1 as [|d ds Hd Hds IH]; intros g pos Hg; [reflexivity|].
  cbn [List.length drawn_from map].
  pose proof (Hg 0%nat ltac:(simpl; lia)) as Hg0.
  rewrite Nat.add_0_r in Hg0. cbn [nth] in Hg0. rewrite Hg0.
  assert (Hmod : Z.of_nat d mod len candidates = Z.of_nat d).
  { apply Z.mod_small. unfold len. lia. }
  rewrite Hmod, Nat2Z.id.
  destruct (nth_error candidates d) as [victim|] eqn:Hnth.
  - cbn [app map]. f_equal. apply IH.
    intros i Hi. specialize (Hg (S i) ltac:(simpl; lia)). cbn [nth] in Hg.
    rewrite <- Hg. f_equal. lia.
  - apply nth_error_None in Hnth. lia.
Qed.

End Destruction.

Section DestructionAnswers.

Context {cl : Client}.

Variable candidates : list Container.

(** The world [w1] is [w] after one draw and the calls [calls], with the
    daemon in [d]. *)
Let stepped (w w1 : World cl) (d : daemon cl) (calls : list call) : Prop :=
  dk w1 = d /\ trace w1 = trace w ++ calls /\
  generator w1 = generator w /\ rng_seed w1 = rng_seed w /\
  rng_pos w1 = S (rng_pos w).

(** One iteration, by the answers of the driver: the container drawn, what
    the iteration returns, where it leaves the daemon and what it called. *)
Lemma delete_once_answers (w : World cl) :
  candidates <> [] ->
  exists victim,
    drawn candidates w 1 = [victim] /\
    match ContainerStop cl (ID victim) (dk w) with
    | (d1, Some err) =>
        exists w1,
          delete_once candidates w
          = (w1, Done (Some (Errorf_w "could not stop container id: %s: %w"
                                      [AStr (ID victim)] err))) /\
          stepped w w1 d1 [CStop (ID victim)]
    | (d1, None) =>
        match ContainerWait cl (ID victim) WaitConditionNotRunning d1 with
        | (d2, WaitError err) =>
            exists w1,
              delete_once candidates w = (w1, Blocked) /\
              stepped w w1 d2 [CStop (ID victim);
                               CWait (ID victim) WaitConditionNotRunning]
        | (d2, WaitOK code) =>
            match ContainerRemove cl (ID victim) d2 with
            | (d3, Some err) =>
                exists w1,
                  delete_once candidates w
                  = (w1, Done (Some (Errorf_w "could not remove container id  %s: %w"
                                              [AStr (ID victim)] err))) /\
                  stepped w w1 d3 (teardown victim)
            | (d3, None) =>
                exists w1,
                  delete_once candidates w = (w1, Done None) /\
                  stepped w w1 d3 (teardown victim)
            end
        end
    end.
Proof.
  intros Hpool.
  assert (Hlen : 0 < len candidates).
  { unfold len. destruct candidates; [contradiction|simpl; lia]. }
  pose proof (Z.mod_pos_bound (generator w (rng_seed w) (rng_pos w))
                              (len candidates) Hlen) as Hk.
  unfold delete_once, bind, rand_Intn.
  destruct (len candidates <=? 0) eqn:Hle; [apply Z.leb_le in Hle; lia|].
  match goal with
  | |- context [index candidates ?k ?w1] =>
      destruct (index_in_range candidates k w1 Hk) as (victim & Hnth & _ & ->)
  end.
  exists victim. split.
  { unfold drawn. cbn [drawn_from]. now rewrite Hnth. }
  unfold client_ContainerStop, client_ContainerWait_ready, client_ContainerRemove,
    logrus, stepped. cbn.
  destruct (ContainerStop cl (ID victim) (dk w)) as [d1 [err|]]; cbn.
  { eexists. split; [reflexivity|]. cbn. now repeat split. }
  destruct (ContainerWait cl (ID victim) WaitConditionNotRunning d1)
    as [d2 [code|err]]; cbn.
  2:{ eexists. split; [reflexivity|]. cbn. repeat split. now rewrite <- app_assoc. }
  destruct (ContainerRemove cl (ID victim) d2) as [d3 [err|]]; cbn;
    eexists; (split; [reflexivity|]); cbn; repeat split;
    now rewrite <- !app_assoc.
Qed.

(** The loop of [deleteContainer], by the answers of the driver: it tears
    down the containers drawn, in the order drawn. *)
Lemma iterate_destroyed (k : nat) :
  candidates <> [] ->
  forall (i : Z) (w : World cl),
  exists calls,
    destroyed (drawn candidates w k) (dk w)
              (dk (fst (iterate k i (fun _ => delete_once candidates) w)))
              calls
              (snd (iterate k i (fun _ => delete_once candidates) w)) /\
    trace (fst (iterate k i (fun _ => delete_once candidates) w)) = trace w ++ calls.
Proof.
  intros Hpool. induction k as [|k IH]; intros i w.
  - exists []. cbn. rewrite app_nil_r. split; [constructor|reflexivity].
  - rewrite iterate_step.
    destruct (delete_once_answers w Hpool) as (victim & Hdrawn & Hone).
    assert (Hsplit : forall w1 : World cl,
              generator w1 = generator w -> rng_seed w1 = rng_seed w ->
              rng_pos w1 = S (rng_pos w) ->
              drawn candidates w (S k) = victim :: drawn candidates w1 k).
    { intros w1 Hg1 Hs1 Hp1. unfold drawn in *. cbn [drawn_from] in *.
      rewrite app_nil_r in Hdrawn. now rewrite Hdrawn, Hg1, Hs1, Hp1. }
    destruct (ContainerStop cl (ID victim) (dk w)) as [d1 [err|]] eqn:Hstop.
    { destruct Hone as (w1 & -> & Hdk & Htrace & Hg & Hs & Hp).
      rewrite (Hsplit w1 Hg Hs Hp). cbn [fst snd]. rewrite Hdk.
      exists [CStop (ID victim)]. split; [|exact Htrace].
      now apply destroyed_stop_failed. }
    destruct (ContainerWait cl (ID victim) WaitConditionNotRunning d1)
      as [d2 [code|err]] eqn:Hwait.
    2:{ destruct Hone as (w1 & -> & Hdk & Htrace & Hg & Hs & Hp).
        rewrite (Hsplit w1 Hg Hs Hp). cbn [fst snd]. rewrite Hdk.
        exists [CStop (ID victim); CWait (ID victim) WaitConditionNotRunning].
        split; [|exact Htrace].
        now apply destroyed_wait_failed with (d1 := d1) (err := err). }
    destruct (ContainerRemove cl (ID victim) d2) as [d3 [err|]] eqn:Hremove;
      destruct Hone as (w1 & -> & Hdk & Htrace & Hg & Hs & Hp);
      rewrite (Hsplit w1 Hg Hs Hp).
    + cbn [fst snd]. rewrite Hdk. exists (teardown victim).
      split; [|exact Htrace].
      now apply destroyed_remove_failed with (d1 := d1) (d2 := d2) (code := code).
    + destruct (IH (i + 1) w1) as (calls & Hrun & Htrace').
      exists (teardown victim ++ calls). split.
      * apply destroyed_next with (d1 := d1) (d2 := d2) (d3 := d3) (code := code);
          try assumption.
        now rewrite <- Hdk.
      * now rewrite Htrace', Htrace, <- app_assoc.
Qed.

(** The containers drawn are those at the positions drawn. *)
Lemma drawn_from_indices (g : nat -> Z) (n : nat) :
  candidates <> [] ->
  forall pos,
    map Some (drawn_from candidates g pos n)
    = map (nth_error candidates) (draw_indices candidates g pos n).
Proof.
  intros Hpool. induction n as [|k IH]; intros pos; [reflexivity|].
  cbn [drawn_from draw_indices map].
  assert (Hlen : 0 < len candidates).
  { unfold len. destruct candidates; [contradiction|simpl; lia]. }
  pose proof (Z.mod_pos_bound (g pos) (len candidates) Hlen) as Hk.
  destruct (nth_error candidates (Z.to_nat (g pos mod len candidates)))
    as [victim|] eqn:Hnth.
  - cbn [app map]. now rewrite IH.
  - apply nth_error_None in Hnth. unfold len in *. lia.
Qed.

(** The position of the [i]-th draw is the [i]-th next value of the
    generator, reduced by the length of the pool. *)
Lemma draw_indices_nth (g : nat -> Z) (n : nat) :
  forall pos i,
    (i < n)%nat ->
    nth i (draw_indices candidates g pos n) 0%nat
    = Z.to_nat (g (pos + i)%nat mod len candidates).
Proof.
  induction n as [|k IH]; intros pos i Hi; [lia|].
  cbn [draw_indices]. destruct i as [|i].
  - cbn [nth]. now rewrite Nat.add_0_r.
  - cbn [nth]. rewrite IH by lia. do 3 f_equal. lia.
Qed.

(** When the generator gives numbers below the length of the pool, the
    positions drawn are those numbers. *)
Lemma draw_indices_replayed (raws : list nat) :
  Forall (fun d => (d < List.length candidates)%nat) raws ->
  forall (g : nat -> Z) (pos : nat),
    (forall i, (i < List.length raws)%nat -> g (pos + i)%nat = Z.of_nat (nth i raws 0%nat)) ->
    draw_indices candidates g pos (List.length raws) = raws.
Proof.
  induction 1 as [|d raws Hd Hraws IH]; intros g pos Hg; [reflexivity|].
  cbn [List.length draw_indices].
  pose proof (Hg 0%nat ltac:(simpl; lia)) as Hg0.
  rewrite Nat.add_0_r in Hg0. cbn [nth] in Hg0. rewrite Hg0.
  assert (Hmod : Z.of_nat d mod len candidates = Z.of_nat d).
  { apply Z.mod_small. unfold len. lia. }
  rewrite Hmod, Nat2Z.id. f_equal. apply IH.
  intros i Hi. specialize (Hg (S i) ltac:(simpl; lia)). cbn [nth] in Hg.
  rewrite <- Hg. f_equal. lia.
Qed.

End DestructionAnswers.

(** ** Counting the results of the draws *)

Lemma sequences_members (m n : nat) (raws : list nat) :
  In raws (sequences m n) ->
  List.length raws = n /\ Forall (fun d => (d < m)%nat) raws.
Proof.
  revert raws. induction n as [|k IH]; intros raws Hin.
  - destruct Hin as [<- | []]. split; [reflexivity|constructor].
  - cbn [sequences] in Hin. apply in_flat_map in Hin as (d & Hd & Hin).
    apply in_map_iff in Hin as (rest & <- & Hrest).
    apply in_seq in Hd. destruct (IH rest Hrest) as [Hlen Hall].
    split; [simpl; now rewrite Hlen|]. constructor; [lia|exact Hall].
Qed.

Lemma sequences_length (m n : nat) : List.length (sequences m n) = (m ^ n)%nat.
Proof.
  induction n as [|k IH]; [reflexivity|].
  cbn [sequences].
  assert (H : forall ds : list nat,
             List.length (flat_map (fun d => map (cons d) (sequences m k)) ds)
             = (List.length ds * List.length (sequences m k))%nat).
  { induction ds as [|d ds IHds]; [reflexivity|].
    cbn [flat_map]. rewrite length_app, length_map, IHds. reflexivity. }
  rewrite H, length_seq, IH. reflexivity.
Qed.

(** A sequence of [n] numbers below [m] is one of the results, once. *)
Lemma sequences_once (m n : nat) (target : list nat) :
  List.length target = n ->
  Forall (fun d => (d < m)%nat) target ->
  count_occ (list_eq_dec Nat.eq_dec) (sequences m n) target = 1%nat.
Proof.
  revert target. induction n as [|k IH]; intros target Hlen Hall.
  - destruct target; [|discriminate]. cbn.
    now destruct (list_eq_dec Nat.eq_dec [] []).
  - destruct target as [|t0 target]; [discriminate|].
    injection Hlen as Hlen. apply Forall_cons_iff in Hall as [Ht0 Htarget].
    cbn [sequences].
    assert (Hcons : forall d (rests : list (list nat)),
               count_occ (list_eq_dec Nat.eq_dec) (map (cons d) rests) (t0 :: target)
               = if Nat.eq_dec d t0
                 then count_occ (list_eq_dec Nat.eq_dec) rests target
                 else 0%nat).
    { intros d rests. induction rests as [|r rests IHr].
      - now destruct (Nat.eq_dec d t0).
      - cbn [map count_occ]. rewrite IHr.
        destruct (list_eq_dec Nat.eq_dec (d :: r) (t0 :: target)) as [E|E];
          destruct (Nat.eq_dec d t0) as [Ed|Ed];
          destruct (list_eq_dec Nat.eq_dec r target) as [Er|Er];
          try reflexivity; congruence. }
    assert (Hsum : forall ds : list nat,
               count_occ (list_eq_dec Nat.eq_dec)
                         (flat_map (fun d => map (cons d) (sequences m k)) ds)
                         (t0 :: target)
               = count_occ Nat.eq_dec ds t0).
    { induction ds as [|d ds IHds]; [reflexivity|].
      cbn [flat_map count_occ]. rewrite count_occ_app, Hcons, IHds, (IH target Hlen Htarget).
      now destruct (Nat.eq_dec d t0). }
    rewrite Hsum.
    apply NoDup_count_occ'; [apply seq_NoDup|]. apply in_seq. lia.
Qed.

(** C6. With a count that does not exceed the pool, [deleteContainer] runs
    one draw per iteration over the whole pool it was given and tears down the
    container drawn before it draws again: stop, then wait for not-running,
    then remove, as the driver answers, ending at the first of these that
    fails.  The position of each draw is the next value of the generator
    reduced by the length of the pool, whatever was drawn before, so a
    container may be drawn again.  Of the results that the calls of the
    generator can give, all equally likely, exactly one makes the draws pick
    any given sequence of positions of the pool: the draws are uniform over
    the pool and independent. *)
Theorem deleteContainer_draws_with_replacement {cl : Client}
    (candidates : list Container) (n : Z) (w : World cl) :
  0 <= n <= len candidates ->
  len candidates < 2 ^ 63 ->
  (exists calls,
     destroyed (drawn candidates w (Z.to_nat n)) (dk w)
               (dk (fst (deleteContainer candidates n w))) calls
               (snd (deleteContainer candidates n w)) /\
     trace (fst (deleteContainer candidates n w)) = trace w ++ calls) /\
  List.length (drawn candidates w (Z.to_nat n)) = Z.to_nat n /\
  map Some (drawn candidates w (Z.to_nat n))
  = map (nth_error candidates)
        (draw_indices candidates (generator w (rng_seed w)) (rng_pos w) (Z.to_nat n)) /\
  (forall i, (i < Z.to_nat n)%nat ->
     nth i (draw_indices candidates (generator w (rng_seed w)) (rng_pos w) (Z.to_nat n))
         0%nat
     = Z.to_nat (generator w (rng_seed w) (rng_pos w + i)%nat mod len candidates)) /\
  List.length (sequences (List.length candidates) (Z.to_nat n))
  = (List.length candidates ^ Z.to_nat n)%nat /\
  (forall target : list nat,
     List.length target = Z.to_nat n ->
     Forall (fun d => (d < List.length candidates)%nat) target ->
     count_occ (list_eq_dec Nat.eq_dec)
               (map (positions_drawn candidates w (Z.to_nat n))
                    (sequences (List.length candidates) (Z.to_nat n)))
               target = 1%nat).
Proof.
  intros Hn Hlen.
  assert (Hchance : forall target : list nat,
            List.length target = Z.to_nat n ->
            Forall (fun d => (d < List.length candidates)%nat) target ->
            count_occ (list_eq_dec Nat.eq_dec)
                      (map (positions_drawn candidates w (Z.to_nat n))
                           (sequences (List.length candidates) (Z.to_nat n)))
                      target = 1%nat).
  { intros target Ht Hall.
    rewrite (map_ext_in _ (fun raws => raws)), map_id.
    - now apply sequences_once.
    - intros raws Hin. apply sequences_members in Hin as [Hr Hbelow].
      unfold positions_drawn. rewrite <- Hr.
      apply draw_indices_replayed; [exact Hbelow|].
      intros i _. unfold replay. do 2 f_equal. lia. }
  split; [|split; [|split; [|split; [|split]]]];
    try exact Hchance; try apply sequences_length;
    try (intros i Hi; now apply draw_indices_nth).
  - unfold deleteContainer. rewrite (guard_passes candidates n Hn Hlen).
    unfold for_uint64. destruct candidates as [|c0 rest] eqn:Hpool.
    + assert (Hz : Z.to_nat n = 0%nat) by (unfold len in Hn; simpl in Hn; lia).
      rewrite Hz. exists []. cbn. rewrite app_nil_r. split; [constructor|reflexivity].
    + rewrite <- Hpool.
      assert (Hne : candidates <> []) by (rewrite Hpool; discriminate).
      apply (iterate_destroyed candidates (Z.to_nat n) Hne 0 w).
  - destruct candidates as [|c0 rest] eqn:Hpool.
    + assert (Hz : Z.to_nat n = 0%nat) by (unfold len in Hn; simpl in Hn; lia).
      now rewrite Hz.
    + rewrite <- Hpool.
      assert (Hne : candidates <> []) by (rewrite Hpool; discriminate).
      apply (drawn_from_members candidates _ _ Hne).
  - destruct candidates as [|c0 rest] eqn:Hpool.
    + assert (Hz : Z.to_nat n = 0%nat) by (unfold len in Hn; simpl in Hn; lia).
      now rewrite Hz.
    + rewrite <- Hpool.
      assert (Hne : candidates <> []) by (rewrite Hpool; discriminate).
      apply (drawn_from_indices candidates _ _ Hne).
Qed.

(** Two draws over two containers with a generator stuck on 0: the first
    container is drawn twice; it is torn down, and the stop of the second draw
    fails.  Of the four results two calls of the generator can give, one
    draws the first container twice. *)
Lemma deleteContainer_draws_with_replacement_witness :
  drawn [Fake.app1; Fake.app2] (Fake.stuck_world Fake.fleet 0) 2 = [Fake.app1; Fake.app1] /\
  deleteContainer [Fake.app1; Fake.app2] 2 (Fake.stuck_world Fake.fleet 0)
  = (mkWorld (cl:=Fake.client)
       (Fake.mkState [Fake.db1; Fake.app2; Fake.app3] 0 None)
       [CStop "a1"; CWait "a1" WaitConditionNotRunning; CRemove "a1"; CStop "a1"]
       [mkEntry InfoLevel [("container", "a1")] "stop container";
        mkEntry InfoLevel [("container", "a1")] "remove container"]
       (fun _ _ => 0) 1 2%nat 1600000000,
     Done (Some (Errorf_w "could not stop container id: %s: %w"
                          [AStr "a1"] Fake.no_such_container))) /\
  count_occ (list_eq_dec Nat.eq_dec)
            (map (positions_drawn [Fake.app1; Fake.app2] (Fake.stuck_world Fake.fleet 0) 2)
                 (sequences 2 2))
            [0%nat; 0%nat] = 1%nat.
Proof.
  split; [reflexivity|]. split; [reflexivity|].
  refine (proj2 (proj2 (proj2 (proj2 (proj2
            (deleteContainer_draws_with_replacement
               [Fake.app1; Fake.app2] 2 (Fake.stuck_world Fake.fleet 0) _ _)))))
            [0%nat; 0%nat] eq_refl _).
  - unfold len. simpl. lia.
  - reflexivity.
  - repeat constructor.
Defined.

(** ** The churn step *)

(** [job] after a listing that gave candidates: the template is the candidate
    at the index drawn after seeding from the clock, and the step is the
    replication followed, if it returned no error, by the destruction over
    the candidates. *)
Lemma job_run {cl : Client} (image : string) (ratio : RatioValue) (w : World cl)
    (d : daemon cl) (containers : list Container) :
  ContainerList cl (dk w) = (d, inl containers) ->
  select_candidates containers image <> [] ->
  exists template,
    In template (select_candidates containers image) /\
    job image ratio w
    = match copyContainer template (Up ratio)
                          (replication_world w d (select_candidates containers image)) with
      | (w2, Done (Some err)) => (w2, Done (Some err))
      | (w2, Done None) =>
          deleteContainer (select_candidates containers image) (Down ratio) w2
      | (w2, Panic msg) => (w2, Panic msg)
      | (w2, Blocked) => (w2, Blocked)
      end.
Proof.
  intros Hlist Hpool.
  unfold job. unfold bind at 1. unfold client_ContainerList. rewrite Hlist.
  remember (select_candidates containers image) as pool eqn:Hsel.
  assert (Hlen : 0 < len pool).
  { unfold len. destruct pool; [contradiction|simpl; lia]. }
  pose proof (Z.mod_pos_bound (generator w (clock w) 0%nat) (len pool) Hlen) as Hk.
  destruct (index_in_range pool _ (replication_world w d pool) Hk)
    as (template & _ & Hin & Hindex).
  exists template. split; [exact Hin|].
  rewrite (bind_done _ _ _ _ _
             (for_each_logrus pool DebugLevel
                (fun c => [("container", ID c); ("image", Image c)])
                (fun _ => "found container") (called w d CList))).
  destruct (len pool =? 0) eqn:Hzero; [apply Z.eqb_eq in Hzero; lia|].
  unfold bind at 1. unfold time_Now_Unix at 1.
  unfold bind at 1. unfold rand_Seed at 1.
  unfold bind at 1. unfold rand_Intn at 1.
  destruct (len pool <=? 0) eqn:Hle; [apply Z.leb_le in Hle; lia|].
  cbn [dk trace logs generator rng_seed rng_pos clock called].
  fold (replication_world w d pool).
  rewrite (bind_done _ _ _ _ _ Hindex).
  unfold bind at 1.
  destruct (copyContainer template (Up ratio) (replication_world w d pool))
    as [w2 [[err|]|msg|]]; try reflexivity.
  unfold bind.
  now destruct (deleteContainer pool (Down ratio) w2) as [w3 [[err|]|msg|]].
Qed.

(** C1. In a step whose candidate pool is not empty, an error of the
    replication ends the step in the world the replication left, so nothing
    of the destruction runs; and when the replication returns no error the
    rest of the step is the destruction over the pool selected from the
    listing made before the replication, whose calls are teardowns of members
    of that pool only. *)
Theorem job_replicates_then_destroys {cl : Client} (image : string) (ratio : RatioValue)
    (w : World cl) (d : daemon cl) (containers : list Container) :
  ContainerList cl (dk w) = (d, inl containers) ->
  select_candidates containers image <> [] ->
  exists template,
    In template (select_candidates containers image) /\
    match copyContainer template (Up ratio)
                        (replication_world w d (select_candidates containers image)) with
    | (w2, Done (Some err)) => job image ratio w = (w2, Done (Some err))
    | (w2, Done None) =>
        job image ratio w
        = deleteContainer (select_candidates containers image) (Down ratio) w2 /\
        exists calls,
          trace (fst (job image ratio w)) = trace w2 ++ calls /\
          Forall (teardown_call_of (select_candidates containers image)) calls
    | (_, Panic _) => False
    | (_, Blocked) => False
    end.
Proof.
  intros Hlist Hpool.
  destruct (job_run image ratio w d containers Hlist Hpool) as (template & Hin & Hjob).
  exists template. split; [exact Hin|].
  destruct (copyContainer_returns template (Up ratio)
              (replication_world w d (select_candidates containers image))) as [r Hr].
  destruct (copyContainer template (Up ratio)
              (replication_world w d (select_candidates containers image)))
    as [w2 r2].
  cbn [snd] in Hr. subst r2. destruct r as [err|]; [exact Hjob|].
  split; [exact Hjob|]. rewrite Hjob.
  apply deleteContainer_targets.
Qed.

(** The fleet with three containers of image app:v1 and the ratio 2:1. *)
Lemma job_replicates_then_destroys_witness :
  trace (fst (job "app:v1" (mkRatio 2 1) (Fake.world Fake.fleet)))
  = [CList; CInspect "a2";
     CCreate (mkConfig "app:v1" ["serve"]) (mkHostConfig false "default")
             (mkNetworkingConfig (Fake.bridge "10.0.0.2")) "";
     CStart "clone";
     CCreate (mkConfig "app:v1" ["serve"]) (mkHostConfig false "default")
             (mkNetworkingConfig (Fake.bridge "10.0.0.2")) "";
     CStart "clone+";
     CStop "a3"; CWait "a3" WaitConditionNotRunning; CRemove "a3"] /\
  exists template,
    In template (select_candidates [Fake.app1; Fake.db1; Fake.app2; Fake.app3] "app:v1") /\
    match copyContainer template 2
            (replication_world
               (Fake.world Fake.fleet) Fake.fleet
               (select_candidates [Fake.app1; Fake.db1; Fake.app2; Fake.app3] "app:v1")) with
    | (w2, Done (Some err)) =>
        job "app:v1" (mkRatio 2 1) (Fake.world Fake.fleet) = (w2, Done (Some err))
    | (w2, Done None) =>
        job "app:v1" (mkRatio 2 1) (Fake.world Fake.fleet)
        = deleteContainer
            (select_candidates [Fake.app1; Fake.db1; Fake.app2; Fake.app3] "app:v1") 1 w2 /\
        exists calls,
          trace (fst (job "app:v1" (mkRatio 2 1) (Fake.world Fake.fleet)))
          = trace w2 ++ calls /\
          Forall (teardown_call_of
                    (select_candidates [Fake.app1; Fake.db1; Fake.app2; Fake.app3] "app:v1"))
                 calls
    | (_, Panic _) => False
    | (_, Blocked) => False
    end.
Proof.
  split; [reflexivity|].
  refine (job_replicates_then_destroys
            "app:v1" (mkRatio 2 1) (Fake.world Fake.fleet) Fake.fleet
            [Fake.app1; Fake.db1; Fake.app2; Fake.app3] eq_refl _).
  intros E. vm_compute in E. discriminate E.
Defined.

(** A daemon that answers three calls: the listing, the inspection and the
    first creation.  The start fails, the step returns its error, and nothing
    is stopped or removed. *)
Example job_stops_at_replication_error :
  job "app:v1" (mkRatio 2 1)
      (Fake.world (Fake.mkState [Fake.app1; Fake.db1; Fake.app2; Fake.app3] 0 (Some 3%nat)))
  = (mkWorld (cl:=Fake.client)
       (Fake.mkState
          [Fake.app1; Fake.db1; Fake.app2; Fake.app3;
           mkContainer "clone" "app:v1" (Fake.bridge "10.0.0.2")] 1 (Some 0%nat))
       [CList; CInspect "a2";
        CCreate (mkConfig "app:v1" ["serve"]) (mkHostConfig false "default")
                (mkNetworkingConfig (Fake.bridge "10.0.0.2")) "";
        CStart "clone"]
       [mkEntry DebugLevel [("container", "a1"); ("image", "app:v1")] "found container";
        mkEntry DebugLevel [("container", "a2"); ("image", "app:v1")] "found container";
        mkEntry DebugLevel [("container", "a3"); ("image", "app:v1")] "found container";
        mkEntry InfoLevel [("container", "clone")] "create container"]
       (fun seed k => seed + Z.of_nat k) 1600000000 1%nat 1600000000,
     Done (Some (Errorf_w "could not start container id %s: %w"
                          [AStr "clone"] Fake.unavailable))).
Proof. reflexivity. Qed.

(** ** The guard of [deleteContainer] *)

(** Within the range of an [int] the guard is the comparison it is written
    to be, and no draw or indexing panics. *)
Lemma deleteContainer_in_bounds {cl : Client} (candidates : list Container) (n : Z)
    (w : World cl) :
  0 <= n < 2 ^ 63 -> len candidates < 2 ^ 63 ->
  (to_int n >? len candidates) = (n >? len candidates) /\
  forall msg, snd (deleteContainer candidates n w) <> Panic msg.
Proof.
  intros Hn Hlen.
  assert (Hint : to_int n = n).
  { unfold to_int, uint64_mod.
    change (2 ^ 64) with 18446744073709551616.
    change (2 ^ 63) with 9223372036854775808 in *.
    rewrite Z.mod_small by lia. lia. }
  rewrite Hint. split; [reflexivity|].
  unfold deleteContainer. rewrite Hint.
  destruct (n >? len candidates) eqn:Hgt; [discriminate|].
  rewrite Z.gtb_ltb in Hgt. apply Z.ltb_ge in Hgt.
  unfold for_uint64. destruct candidates as [|c0 rest] eqn:Hpool.
  - assert (Hz : Z.to_nat n = 0%nat) by (unfold len in Hgt; simpl in Hgt; lia).
    rewrite Hz. discriminate.
  - rewrite <- Hpool.
    assert (Hne : candidates <> []) by (rewrite Hpool; discriminate).
    now destruct (iterate_delete candidates (Z.to_nat n) Hne 0 w) as (_ & _ & _ & _ & H).
Qed.

(** C2. A count that exceeds the pool is refused before anything is done:
    [deleteContainer] returns the count error, and the world it returns is the
    world it was given, so nothing was stopped, waited for or removed, nothing
    was drawn and the daemon is as it was.  The count is one that fits an
    [int], as every count [job] passes does: the sides of the ratio are at
    most 255. *)
Theorem deleteContainer_refuses_excess {cl : Client} (candidates : list Container)
    (n : Z) (w : World cl) :
  len candidates < n < 2 ^ 63 ->
  deleteContainer candidates n w
  = (w, Done (Some (Errorf "can not delete %v containers when exists only %v"
                           [AUint n; AInt (len candidates)]))) /\
  InsufficientCandidatesError
    (Errorf "can not delete %v containers when exists only %v"
            [AUint n; AInt (len candidates)]) /\
  trace (fst (deleteContainer candidates n w)) = trace w /\
  dk (fst (deleteContainer candidates n w)) = dk w.
Proof.
  intros Hn.
  rewrite (deleteContainer_insufficient candidates n w Hn).
  split; [reflexivity|]. split; [constructor|]. split; reflexivity.
Qed.

(** Three deletions asked of a pool of one container. *)
Lemma deleteContainer_refuses_excess_witness :
  deleteContainer [Fake.app1] 3 (Fake.world Fake.fleet)
  = (Fake.world Fake.fleet,
     Done (Some (Errorf "can not delete %v containers when exists only %v"
                        [AUint 3; AInt 1]))).
Proof.
  refine (proj1 (deleteContainer_refuses_excess [Fake.app1] 3 (Fake.world Fake.fleet) _)).
  split; reflexivity.
Defined.

(** C10. When the guard has let a count through and the loop runs at least
    once, the pool is not empty; in any world the draw of an iteration is made
    with the length of the pool, which is positive, its result is below that
    length, and the indexing that follows finds a container; so
    [deleteContainer] does not panic.  The count is one that fits an [int], as
    every count [job] passes does. *)
Theorem deleteContainer_draws_in_bounds {cl : Client} (candidates : list Container)
    (n : Z) (w : World cl) :
  0 <= n < 2 ^ 63 ->
  len candidates < 2 ^ 63 ->
  (to_int n >? len candidates) = false ->
  1 <= n ->
  candidates <> [] /\
  0 < len candidates /\
  (forall v : World cl,
     exists v' k victim,
       rand_Intn (len candidates) v = (v', Done k) /\
       0 <= k < len candidates /\
       nth_error candidates (Z.to_nat k) = Some victim /\
       index candidates k v' = (v', Done victim)) /\
  (forall msg, snd (deleteContainer candidates n w) <> Panic msg).
Proof.
  intros Hn Hlen Hguard Hloop.
  destruct (deleteContainer_in_bounds candidates n w Hn Hlen) as [Hexact Hpanic].
  rewrite Hexact, Z.gtb_ltb in Hguard. apply Z.ltb_ge in Hguard.
  assert (Hpos : 0 < len candidates) by lia.
  split.
  { intros ->. unfold len in Hpos. simpl in Hpos. lia. }
  split; [exact Hpos|]. split; [|exact Hpanic].
  intros v. unfold rand_Intn.
  destruct (len candidates <=? 0) eqn:Hle; [apply Z.leb_le in Hle; lia|].
  pose proof (Z.mod_pos_bound (generator v (rng_seed v) (rng_pos v))
                              (len candidates) Hpos) as Hk.
  eexists. exists (generator v (rng_seed v) (rng_pos v) mod len candidates).
  match goal with
  | |- exists victim, (?v1, _) = _ /\ _ =>
      destruct (index_in_range candidates _ v1 Hk) as (victim & Hnth & _ & Hindex)
  end.
  exists victim. split; [reflexivity|]. split; [exact Hk|]. split; assumption.
Qed.

(** Two deletions over a pool of two containers. *)
Lemma deleteContainer_draws_in_bounds_witness :
  [Fake.app1; Fake.app2] <> [] /\
  snd (deleteContainer [Fake.app1; Fake.app2] 2 (Fake.world Fake.fleet))
  <> Panic "invalid argument to Intn".
Proof.
  assert (H : [Fake.app1; Fake.app2] <> [] /\
              0 < len [Fake.app1; Fake.app2] /\
              (forall v : World Fake.client,
                 exists v' k victim,
                   rand_Intn (len [Fake.app1; Fake.app2]) v = (v', Done k) /\
                   0 <= k < len [Fake.app1; Fake.app2] /\
                   nth_error [Fake.app1; Fake.app2] (Z.to_nat k) = Some victim /\
                   index [Fake.app1; Fake.app2] k v' = (v', Done victim)) /\
              (forall msg,
                 snd (deleteContainer [Fake.app1; Fake.app2] 2 (Fake.world Fake.fleet))
                 <> Panic msg)).
  { refine (deleteContainer_draws_in_bounds [Fake.app1; Fake.app2] 2
              (Fake.world Fake.fleet) _ _ _ _).
    - lia.
    - reflexivity.
    - reflexivity.
    - lia. }
  exact (conj (proj1 H) (proj2 (proj2 (proj2 H)) "invalid argument to Intn")).
Defined.

(** Beyond the range of an [int] the guard is no longer that comparison: a
    count of 2^63, which nothing in the program passes, reads as a negative
    [int] and is let through whatever the pool.  Against a pool of one
    container the loop then runs, removes the container and fails when it
    draws it again. *)
Remark deleteContainer_wrapped_count_passes_guard :
  len [Fake.app1] < 2 ^ 63 < uint64_mod /\
  to_int (2 ^ 63) = - 2 ^ 63 /\
  trace (fst (deleteContainer [Fake.app1] (2 ^ 63) (Fake.world Fake.fleet)))
  = [CStop "a1"; CWait "a1" WaitConditionNotRunning; CRemove "a1"; CStop "a1"] /\
  Fake.containers (dk (fst (deleteContainer [Fake.app1] (2 ^ 63) (Fake.world Fake.fleet))))
  = [Fake.db1; Fake.app2; Fake.app3] /\
  snd (deleteContainer [Fake.app1] (2 ^ 63) (Fake.world Fake.fleet))
  = Done (Some (Errorf_w "could not stop container id: %s: %w"
                         [AStr "a1"] Fake.no_such_container)).
Proof.
  split; [split; reflexivity|]. split; [reflexivity|].
  unfold deleteContainer.
  change (to_int (2 ^ 63) >? len [Fake.app1]) with false. cbv iota.
  unfold for_uint64.
  replace (Z.to_nat (2 ^ 63)) with (S (S (Z.to_nat (2 ^ 63 - 2)))) by lia.
  generalize (Z.to_nat (2 ^ 63 - 2)). intros k.
  repeat split; reflexivity.
Qed.

(** The same count against an empty pool: the guard lets it through and the
    first draw is made with the bound 0. *)
Remark deleteContainer_wrapped_count_draws_from_empty {cl : Client} (w : World cl) :
  (to_int (2 ^ 63) >? len (@nil Container)) = false /\
  deleteContainer [] (2 ^ 63) w = (w, Panic "invalid argument to Intn").
Proof.
  split; [reflexivity|].
  unfold deleteContainer.
  change (to_int (2 ^ 63) >? len (@nil Container)) with false. cbv iota.
  unfold for_uint64.
  replace (Z.to_nat (2 ^ 63)) with (S (Z.to_nat (2 ^ 63 - 1))) by lia.
  rewrite iterate_step. reflexivity.
Qed.

(** ** Rendering a ratio and parsing it back *)

Lemma digit_char_value (d : Z) :
  0 <= d <= 9 -> RatioSyntax.digit_value (fmt.digit_char d) = Some d.
Proof.
  intros Hd.
  assert (H : In d [0; 1; 2; 3; 4; 5; 6; 7; 8; 9]) by (simpl; lia).
  simpl in H. decompose [or] H; subst; try reflexivity. contradiction.
Qed.

(** The digits written are read back as the number they stand for, in front
    of whatever follows them. *)
Lemma format_digits_parse (fuel : nat) :
  forall (n : Z) (acc : string),
    0 <= n < 10 ^ Z.of_nat fuel ->
    exists k : nat,
      forall a, RatioSyntax.decimal_from a (fmt.format_digits fuel n acc)
                = RatioSyntax.decimal_from (a * 10 ^ Z.of_nat k + n) acc.
Proof.
  induction fuel as [|fuel IH]; intros n acc Hn.
  - exists 0%nat. intros a. simpl in *. f_equal. lia.
  - cbn [fmt.format_digits].
    assert (Hmod : 0 <= n mod 10 <= 9) by (pose proof (Z.mod_pos_bound n 10); lia).
    destruct (n <? 10) eqn:Hlt.
    + apply Z.ltb_lt in Hlt. exists 1%nat. intros a.
      cbn [RatioSyntax.decimal_from]. rewrite (digit_char_value _ Hmod).
      rewrite Z.mod_small by lia. f_equal.
    + apply Z.ltb_ge in Hlt.
      destruct (IH (n / 10) (String (fmt.digit_char (n mod 10)) acc)) as [k Hk].
      { rewrite Nat2Z.inj_succ, Z.pow_succ_r in Hn by lia.
        split; [apply Z.div_pos; lia|apply Z.div_lt_upper_bound; lia]. }
      exists (S k). intros a. rewrite Hk.
      cbn [RatioSyntax.decimal_from]. rewrite (digit_char_value _ Hmod).
      f_equal. rewrite Nat2Z.inj_succ, Z.pow_succ_r by lia.
      pose proof (Z.div_mod n 10 ltac:(lia)). lia.
Qed.

Lemma format_digits_onto (fuel : nat) (n : Z) (c : ascii) (acc : string) :
  exists c' s, fmt.format_digits fuel n (String c acc) = String c' s.
Proof.
  revert n c acc. induction fuel as [|fuel IH]; intros n c acc.
  - now exists c, acc.
  - cbn [fmt.format_digits]. destruct (n <? 10); [eauto|apply IH].
Qed.

Lemma format_digits_nonempty (fuel : nat) (n : Z) (acc : string) :
  exists c s, fmt.format_digits (S fuel) n acc = String c s.
Proof.
  cbn [fmt.format_digits]. destruct (n <? 10); [eauto|apply format_digits_onto].
Qed.

(** The numeral of a [uint64] is an unsigned decimal that reads as the
    number. *)
Lemma FormatUint_parse (n : Z) :
  0 <= n < uint64_mod ->
  RatioSyntax.unsigned_decimal (fmt.FormatUint n) = Some n.
Proof.
  intros Hn. unfold fmt.FormatUint.
  destruct (format_digits_parse 20 n "") as [k Hk].
  { unfold uint64_mod in Hn. change (2 ^ 64) with 18446744073709551616 in Hn.
    change (10 ^ Z.of_nat 20) with 100000000000000000000. lia. }
  destruct (format_digits_nonempty 19 n "") as (c & s & Hs).
  unfold RatioSyntax.unsigned_decimal. rewrite Hs, <- Hs, Hk.
  reflexivity.
Qed.

(** [Set] on two tokens around a colon. *)
Lemma Set_of_tokens (r : RatioValue) (a b : string) (up down : Z) :
  RatioSyntax.uint8_token a up -> RatioSyntax.uint8_token b down ->
  RatioValue_Set r (a ++ ":" ++ b) = (mkRatio up down, None).
Proof.
  intros Ha Hb. unfold RatioValue_Set. rewrite (Split_tokens _ _ _ _ Ha Hb).
  pose proof (ParseUint_uint8 a) as Hpa.
  destruct (strconv.ParseUint a 8) as [va [err|]].
  { destruct Hpa as [Hno _]. destruct (Hno _ Ha). }
  pose proof (ParseUint_uint8 b) as Hpb.
  destruct (strconv.ParseUint b 8) as [vb [err|]].
  { destruct Hpb as [Hno _]. destruct (Hno _ Hb). }
  now rewrite (uint8_token_fun _ _ _ Hpa Ha), (uint8_token_fun _ _ _ Hpb Hb).
Qed.

(** X1. Parsing what [String] renders gives the ratio the loop would run
    with: the ratio itself when neither side is zero, 1:1 otherwise. *)
Theorem String_then_Set (r r0 : RatioValue) :
  0 <= Up r <= 255 -> 0 <= Down r <= 255 ->
  RatioValue_Set r0 (RatioValue_String r) = (resolve r, None).
Proof.
  intros Hu Hd. unfold RatioValue_String, resolve, RatioValue_isZero.
  destruct ((Up r =? 0) || (Down r =? 0)); [reflexivity|].
  assert (Htok : forall n, 0 <= n <= 255 -> RatioSyntax.uint8_token (fmt.FormatUint n) n).
  { intros n Hn. split; [|exact Hn]. apply FormatUint_parse.
    unfold uint64_mod. change (2 ^ 64) with 18446744073709551616. lia. }
  rewrite (Set_of_tokens r0 _ _ _ _ (Htok _ Hu) (Htok _ Hd)). now destruct r.
Qed.

(** The ratio 12:3 renders as the string 12:3, which parses to it. *)
Lemma String_then_Set_witness :
  RatioValue_String (mkRatio 12 3) = "12:3" /\
  RatioValue_Set (mkRatio 0 0) (RatioValue_String (mkRatio 12 3)) = (mkRatio 12 3, None).
Proof.
  split; [reflexivity|].
  refine (String_then_Set (mkRatio 12 3) (mkRatio 0 0) _ _); simpl; lia.
Defined.

(** ** The ratio of [main] *)

(** The sides of the ratio of [main] are between 1 and 255. *)
Lemma main_ratio_bounds (flag : option string) (ratio : RatioValue) :
  main_ratio flag = inl ratio ->
  1 <= Up ratio <= 255 /\ 1 <= Down ratio <= 255.
Proof.
  assert (Hres : forall r, 0 <= Up r <= 255 -> 0 <= Down r <= 255 ->
                           1 <= Up (resolve r) <= 255 /\ 1 <= Down (resolve r) <= 255).
  { intros r Hu Hd. unfold resolve, RatioValue_isZero.
    destruct (Up r =? 0) eqn:Eu; [simpl; lia|].
    destruct (Down r =? 0) eqn:Ed; [simpl; lia|].
    apply Z.eqb_neq in Eu, Ed. simpl. lia. }
  unfold main_ratio. destruct flag as [s|].
  - pose proof (Set_well_formed (mkRatio 0 0) s) as Hset.
    destruct (RatioValue_Set (mkRatio 0 0) s) as [r' [err|]]; [discriminate|].
    intros H. injection H as <-.
    destruct Hset as (a & b & _ & [_ Ha] & [_ Hb]). now apply Hres.
  - intros H. injection H as <-. simpl. lia.
Qed.

(** X2. Whatever the flag, the ratio [main] runs its loop with has both
    sides between 1 and 255; it is not zero, and replacing zero ratios again
    would not change it. *)
Theorem main_ratio_range (flag : option string) (ratio : RatioValue) :
  main_ratio flag = inl ratio ->
  1 <= Up ratio <= 255 /\ 1 <= Down ratio <= 255 /\
  RatioValue_isZero ratio = false /\ resolve ratio = ratio.
Proof.
  intros H. destruct (main_ratio_bounds flag ratio H) as [Hu Hd].
  assert (Hz : RatioValue_isZero ratio = false).
  { unfold RatioValue_isZero. apply orb_false_iff.
    split; apply Z.eqb_neq; lia. }
  repeat split; try lia; [exact Hz|].
  unfold resolve. now rewrite Hz.
Qed.

(** The flag 7:0 parses and gives 1:1. *)
Lemma main_ratio_range_witness :
  main_ratio (Some "7:0") = inl (mkRatio 1 1) /\
  1 <= Up (mkRatio 1 1) <= 255 /\ 1 <= Down (mkRatio 1 1) <= 255.
Proof.
  split; [reflexivity|].
  destruct (main_ratio_range (Some "7:0") (mkRatio 1 1) eq_refl) as (Hu & Hd & _).
  exact (conj Hu Hd).
Defined.

(** ** The calls of a step *)

Section Calls.

Context {cl : Client}.

Lemma replications_calls (config : Config) (hostConfig : HostConfig)
    (networkingConfig : NetworkingConfig) (name : string) (ids : list string) :
  forallb replication_call
          (replications (CCreate config hostConfig networkingConfig name) ids) = true.
Proof. induction ids as [|id ids IH]; [reflexivity|exact IH]. Qed.

(** [copyContainer] only inspects, creates and starts; whatever it returns
    is an error of [job] or none. *)
Lemma copyContainer_calls (container : Container) (n : Z) (w : World cl) :
  exists calls,
    trace (fst (copyContainer container n w)) = trace w ++ calls /\
    forallb replication_call calls = true /\
    forall err, snd (copyContainer container n w) = Done (Some err) -> job_error err.
Proof.
  unfold copyContainer, bind, client_ContainerInspect.
  destruct (ContainerInspect cl (ID container) (dk w)) as [d [infos|err]].
  - unfold for_uint64.
    destruct (iterate_copy (JSON_Config infos) (JSON_HostConfig infos)
                (mkNetworkingConfig (NetworkSettings_Networks container))
                (Z.to_nat n) 0 (called w d (CInspect (ID container))))
      as (calls & Htrace & Hres).
    exists (CInspect (ID container) :: calls). split.
    { rewrite Htrace. cbn. now rewrite <- app_assoc. }
    split.
    + cbn [forallb replication_call andb].
      inversion Hres as [ids Hlen | ids e Hlen | ids id e Hlen];
        rewrite ?forallb_app, replications_calls; reflexivity.
    + intros e He. rewrite He in Hres. inversion Hres; constructor.
  - exists [CInspect (ID container)]. repeat split.
    cbn. intros e He. injection He as <-. constructor.
Qed.

(** [copyContainer] leaves the generator and the clock as they were. *)
Lemma copyContainer_same_rng (container : Container) (n : Z) (w : World cl) :
  same_rng w (fst (copyContainer container n w)).
Proof.
  assert (Hrefl : forall v : World cl, same_rng v v) by (now intros v).
  assert (Htrans : forall u v x : World cl, same_rng u v -> same_rng v x -> same_rng u x).
  { intros u v x (H1 & H2 & H3 & H4) (H1' & H2' & H3' & H4'). repeat split; congruence. }
  assert (Honce : forall config hostConfig networkConfig (v : World cl),
             same_rng v (fst (copy_once config hostConfig networkConfig v))).
  { intros config hostConfig networkConfig v.
    unfold copy_once, bind, client_ContainerCreate.
    destruct (ContainerCreate cl config hostConfig networkConfig "" (dk v))
      as [d [body|err]]; [|now repeat split].
    rewrite (for_each_logrus _ WarnLevel (fun _ => []) (fun warning => warning)).
    unfold logrus, client_ContainerStart. cbn.
    destruct (ContainerStart cl (Created_ID body) d) as [d' [err|]]; now repeat split. }
  assert (Hloop : forall config hostConfig networkConfig k i (v : World cl),
             same_rng v (fst (iterate k i (fun _ => copy_once config hostConfig networkConfig) v))).
  { intros config hostConfig networkConfig k.
    induction k as [|k IH]; intros i v; [apply Hrefl|].
    rewrite iterate_step. specialize (Honce config hostConfig networkConfig v).
    destruct (copy_once config hostConfig networkConfig v) as [v1 [[err|]|msg|]];
      cbn [fst] in *; try exact Honce.
    eapply Htrans; [exact Honce|apply IH]. }
  unfold copyContainer, bind, client_ContainerInspect.
  destruct (ContainerInspect cl (ID container) (dk w)) as [d [infos|err]].
  - unfold for_uint64. eapply Htrans; [|apply Hloop]. now repeat split.
  - now repeat split.
Qed.

(** One iteration of [deleteContainer] over a pool that is not empty, with
    what it did to the container it drew. *)
Lemma delete_once_result (candidates : list Container) (w : World cl) :
  candidates <> [] ->
  exists victim calls,
    drawn candidates w 1 = [victim] /\
    trace (fst (delete_once candidates w)) = trace w ++ calls /\
    delete_result [victim] calls (snd (delete_once candidates w)) /\
    generator (fst (delete_once candidates w)) = generator w /\
    rng_seed (fst (delete_once candidates w)) = rng_seed w /\
    rng_pos (fst (delete_once candidates w)) = S (rng_pos w).
Proof.
  intros Hpool.
  assert (Hlen : 0 < len candidates).
  { unfold len. destruct candidates; [contradiction|simpl; lia]. }
  pose proof (Z.mod_pos_bound (generator w (rng_seed w) (rng_pos w))
                              (len candidates) Hlen) as Hk.
  unfold delete_once, bind, rand_Intn.
  destruct (len candidates <=? 0) eqn:Hle; [apply Z.leb_le in Hle; lia|].
  match goal with
  | |- context [index candidates ?k ?w1] =>
      destruct (index_in_range candidates k w1 Hk) as (victim & Hnth & _ & ->)
  end.
  exists victim.
  assert (Hdrawn : drawn candidates w 1 = [victim]).
  { unfold drawn. cbn [drawn_from]. now rewrite Hnth. }
  unfold client_ContainerStop, client_ContainerWait_ready, client_ContainerRemove,
    logrus. cbn.
  destruct (ContainerStop cl (ID victim) (dk w)) as [d1 [err|]]; cbn.
  { exists [CStop (ID victim)]. repeat split; try assumption.
    apply (delete_stop_failed [victim] [] victim [] err). reflexivity. }
  destruct (ContainerWait cl (ID victim) WaitConditionNotRunning d1)
    as [d2 [code|err]]; cbn.
  2:{ exists [CStop (ID victim); CWait (ID victim) WaitConditionNotRunning].
      repeat split; try assumption.
      - now rewrite <- app_assoc.
      - apply (delete_wait_blocked [victim] [] victim []). reflexivity. }
  destruct (ContainerRemove cl (ID victim) d2) as [d3 [err|]]; cbn;
    exists (teardown victim); repeat split; try assumption;
    try (now rewrite <- !app_assoc).
  - apply (delete_remove_failed [victim] [] victim [] err). reflexivity.
  - apply (delete_all [victim]).
Qed.

Lemma delete_result_cons (victim : Container) (victims : list Container)
    (calls : list call) (r : outcome (option error)) :
  delete_result victims calls r ->
  delete_result (victim :: victims) (teardown victim ++ calls) r.
Proof.
  intros [| torn v rest err -> | torn v rest -> | torn v rest err ->].
  - apply (delete_all (victim :: victims)).
  - rewrite app_assoc.
    apply (delete_stop_failed _ (victim :: torn) v rest err). reflexivity.
  - rewrite app_assoc.
    apply (delete_wait_blocked _ (victim :: torn) v rest). reflexivity.
  - rewrite app_assoc.
    apply (delete_remove_failed _ (victim :: torn) v rest err). reflexivity.
Qed.

Lemma delete_result_first (victim : Container) (victims : list Container)
    (calls : list call) (r : outcome (option error)) :
  delete_result [victim] calls r -> r <> Done None ->
  delete_result (victim :: victims) calls r.
Proof.
  intros H Hr.
  inversion H as [| torn v rest err E | torn v rest E | torn v rest err E]; subst.
  - now destruct Hr.
  - destruct torn as [|t [|t' torn]]; try discriminate. injection E as <- <-.
    apply (delete_stop_failed _ [] victim victims err). reflexivity.
  - destruct torn as [|t [|t' torn]]; try discriminate. injection E as <- <-.
    apply (delete_wait_blocked _ [] victim victims). reflexivity.
  - destruct torn as [|t [|t' torn]]; try discriminate. injection E as <- <-.
    apply (delete_remove_failed _ [] victim victims err). reflexivity.
Qed.

(** The loop of [deleteContainer] stops at the first call that fails. *)
Lemma iterate_delete_result (candidates : list Container) (k : nat) :
  candidates <> [] ->
  forall (i : Z) (w : World cl),
  exists calls,
    trace (fst (iterate k i (fun _ => delete_once candidates) w)) = trace w ++ calls /\
    delete_result (drawn candidates w k) calls
                  (snd (iterate k i (fun _ => delete_once candidates) w)).
Proof.
  intros Hpool. induction k as [|k IH]; intros i w.
  - exists []. cbn. rewrite app_nil_r. split; [reflexivity|].
    apply (delete_all []).
  - rewrite iterate_step.
    destruct (delete_once_result candidates w Hpool)
      as (victim & calls & Hdrawn & Htrace & Hres & Hg & Hs & Hp).
    assert (Hsplit : forall w1 : World cl,
              generator w1 = generator w -> rng_seed w1 = rng_seed w ->
              rng_pos w1 = S (rng_pos w) ->
              drawn candidates w (S k) = victim :: drawn candidates w1 k).
    { intros w1 Hg1 Hs1 Hp1. unfold drawn in *. cbn [drawn_from] in *.
      rewrite app_nil_r in Hdrawn. now rewrite Hdrawn, Hg1, Hs1, Hp1. }
    destruct (delete_once candidates w) as [w1 r1]. cbn [fst snd] in *.
    rewrite (Hsplit w1 Hg Hs Hp).
    destruct r1 as [[err|]|msg|].
    + exists calls. split; [exact Htrace|].
      apply delete_result_first; [exact Hres|discriminate].
    + destruct (IH (i + 1) w1) as (calls' & Htrace' & Hres').
      inversion Hres as [Hcalls | torn v rest err E | torn v rest E | torn v rest err E].
      assert (Hc : calls = teardown victim) by (now rewrite <- Hcalls).
      exists (teardown victim ++ calls'). split.
      * now rewrite Htrace', Htrace, Hc, <- app_assoc.
      * now apply delete_result_cons.
    + inversion Hres.
    + exists calls. split; [exact Htrace|].
      apply delete_result_first; [exact Hres|discriminate].
Qed.

End Calls.

(** ** The step as a whole *)

Section Step.

Context {cl : Client}.

(** The calls of [deleteContainer] are stops, waits and removals, and the
    errors it returns are errors of [job]. *)
Lemma deleteContainer_calls (candidates : list Container) (n : Z) (w : World cl) :
  exists calls,
    trace (fst (deleteContainer candidates n w)) = trace w ++ calls /\
    forallb teardown_call calls = true /\
    forall err, snd (deleteContainer candidates n w) = Done (Some err) -> job_error err.
Proof.
  destruct (deleteContainer_targets candidates n w) as (calls & Htrace & Hall).
  exists calls. split; [exact Htrace|]. split.
  - apply forallb_forall. intros c Hc. rewrite Forall_forall in Hall.
    destruct (Hall c Hc) as (victim & _ & Hin).
    cbn in Hin. decompose [or] Hin; subst; try reflexivity. contradiction.
  - clear calls Htrace Hall. unfold deleteContainer.
    destruct (to_int n >? len candidates).
    { intros err He. injection He as <-. constructor. }
    unfold for_uint64. destruct candidates as [|c0 rest] eqn:Hpool.
    + destruct (Z.to_nat n) as [|k]; [discriminate|].
      rewrite iterate_step. discriminate.
    + rewrite <- Hpool.
      assert (Hne : candidates <> []) by (rewrite Hpool; discriminate).
      destruct (iterate_delete_result candidates (Z.to_nat n) Hne 0 w)
        as (calls & _ & Hres).
      intros err He. rewrite He in Hres. inversion Hres; constructor.
Qed.

(** The three ways a step goes: the listing fails; it gives no candidate;
    or it gives some, and the step is the replication of the candidate at
    the index drawn, then the destruction. *)
Lemma job_cases (image : string) (ratio : RatioValue) (w : World cl) :
  (exists d err,
     ContainerList cl (dk w) = (d, inr err) /\
     job image ratio w
     = (called w d CList,
        Done (Some (Errorf_w "could not get the list of containers: %w" [] err)))) \/
  (exists d containers,
     ContainerList cl (dk w) = (d, inl containers) /\
     select_candidates containers image = [] /\
     job image ratio w = (called w d CList, Done None)) \/
  (exists d containers template,
     ContainerList cl (dk w) = (d, inl containers) /\
     select_candidates containers image <> [] /\
     nth_error (select_candidates containers image)
               (Z.to_nat (generator w (clock w) 0%nat
                          mod len (select_candidates containers image)))
     = Some template /\
     job image ratio w
     = match copyContainer template (Up ratio)
              (replication_world w d (select_candidates containers image)) with
       | (w2, Done (Some err)) => (w2, Done (Some err))
       | (w2, Done None) =>
           deleteContainer (select_candidates containers image) (Down ratio) w2
       | (w2, Panic msg) => (w2, Panic msg)
       | (w2, Blocked) => (w2, Blocked)
       end).
Proof.
  destruct (ContainerList cl (dk w)) as [d [containers|err]] eqn:Hlist.
  2:{ left. exists d, err. split; [reflexivity|].
      unfold job, bind, client_ContainerList. now rewrite Hlist. }
  right. destruct (select_candidates containers image) as [|c0 rest] eqn:Hsel.
  { left. exists d, containers. split; [reflexivity|]. split; [exact Hsel|].
    unfold job, bind, client_ContainerList. now rewrite Hlist, Hsel. }
  right.
  assert (Hpool : select_candidates containers image <> [])
    by (rewrite Hsel; discriminate).
  clear Hsel c0 rest.
  unfold job. unfold bind at 1. unfold client_ContainerList. rewrite Hlist.
  remember (select_candidates containers image) as pool eqn:Hsel.
  assert (Hlen : 0 < len pool).
  { unfold len. destruct pool; [contradiction|simpl; lia]. }
  pose proof (Z.mod_pos_bound (generator w (clock w) 0%nat) (len pool) Hlen) as Hk.
  destruct (index_in_range pool _ (replication_world w d pool) Hk)
    as (template & Hnth & _ & Hindex).
  exists d, containers, template. rewrite <- Hsel.
  split; [reflexivity|]. split; [exact Hpool|]. split; [exact Hnth|].
  rewrite (bind_done _ _ _ _ _
             (for_each_logrus pool DebugLevel
                (fun c => [("container", ID c); ("image", Image c)])
                (fun _ => "found container") (called w d CList))).
  destruct (len pool =? 0) eqn:Hzero; [apply Z.eqb_eq in Hzero; lia|].
  unfold bind at 1. unfold time_Now_Unix at 1.
  unfold bind at 1. unfold rand_Seed at 1.
  unfold bind at 1. unfold rand_Intn at 1.
  destruct (len pool <=? 0) eqn:Hle; [apply Z.leb_le in Hle; lia|].
  cbn [dk trace logs generator rng_seed rng_pos clock called].
  fold (replication_world w d pool).
  rewrite (bind_done _ _ _ _ _ Hindex).
  unfold bind at 1.
  destruct (copyContainer template (Up ratio) (replication_world w d pool))
    as [w2 [[err|]|msg|]]; try reflexivity.
  unfold bind.
  now destruct (deleteContainer pool (Down ratio) w2) as [w3 [[err|]|msg|]].
Qed.

Lemma select_candidates_len (containers : list Container) (image : string) :
  len (select_candidates containers image) <= len containers.
Proof.
  rewrite select_candidates_filter. unfold len. apply inj_le, filter_length_le.
Qed.

(** X3. In a step whose count of deletions fits an [int], no draw is made
    with a bound that is not positive and no indexing of the candidates is out
    of range: the step ends with neither of the two panics of the draws. *)
Theorem job_draws_in_bounds (image : string) (ratio : RatioValue) (w : World cl) :
  0 <= Down ratio < 2 ^ 63 ->
  (forall d containers,
     ContainerList cl (dk w) = (d, inl containers) -> len containers < 2 ^ 63) ->
  snd (job image ratio w) <> Panic "invalid argument to Intn" /\
  snd (job image ratio w) <> Panic "index out of range".
Proof.
  intros Hdown Hbound.
  enough (H : forall msg, snd (job image ratio w) <> Panic msg) by (split; apply H).
  intros msg.
  destruct (job_cases image ratio w)
    as [(d & err & _ & ->) | [(d & containers & _ & _ & ->)
       | (d & containers & template & Hlist & Hpool & _ & ->)]];
    try discriminate.
  destruct (copyContainer_returns template (Up ratio)
              (replication_world w d (select_candidates containers image))) as [r Hr].
  destruct (copyContainer template (Up ratio)
              (replication_world w d (select_candidates containers image)))
    as [w2 r2].
  cbn [snd] in Hr. subst r2. destruct r as [err|]; [discriminate|].
  apply deleteContainer_in_bounds; [exact Hdown|].
  pose proof (select_candidates_len containers image).
  specialize (Hbound d containers Hlist). lia.
Qed.

(** X4. A step lists the containers once, first; then come inspections,
    creations and starts only; then stops, waits and removals only.  Nothing
    is created once a teardown has begun, and nothing is listed twice. *)
Theorem job_calls_in_order (image : string) (ratio : RatioValue) (w : World cl) :
  exists replication destruction,
    trace (fst (job image ratio w)) = trace w ++ CList :: replication ++ destruction /\
    forallb replication_call replication = true /\
    forallb teardown_call destruction = true.
Proof.
  destruct (job_cases image ratio w)
    as [(d & err & _ & ->) | [(d & containers & _ & _ & ->)
       | (d & containers & template & _ & _ & _ & ->)]];
    try (now exists [], []).
  destruct (copyContainer_calls template (Up ratio)
              (replication_world w d (select_candidates containers image)))
    as (made & Hmade & Hkind & _).
  destruct (copyContainer template (Up ratio)
              (replication_world w d (select_candidates containers image)))
    as [w2 r2].
  cbn [fst replication_world trace] in Hmade.
  assert (Hstop : trace w2 = trace w ++ CList :: made ++ []).
  { now rewrite Hmade, app_nil_r, <- app_assoc. }
  destruct r2 as [[err|]|msg|]; try (now exists made, []).
  destruct (deleteContainer_calls (select_candidates containers image) (Down ratio) w2)
    as (torn & Htorn & Hkind' & _).
  exists made, torn. split; [|now split].
  rewrite Htorn, Hmade, <- !app_assoc. reflexivity.
Qed.

(** X5. Every error a step returns is one of seven: the failure of the
    listing, of the inspection, of a creation, of a start, of a stop or of
    a removal, each wrapped with its context, or the refusal of a count
    larger than the pool. *)
Theorem job_errors (image : string) (ratio : RatioValue) (w : World cl) (err : error) :
  snd (job image ratio w) = Done (Some err) -> job_error err.
Proof.
  destruct (job_cases image ratio w)
    as [(d & e & _ & ->) | [(d & containers & _ & _ & ->)
       | (d & containers & template & _ & _ & _ & ->)]].
  - intros H. injection H as <-. constructor.
  - discriminate.
  - destruct (copyContainer_calls template (Up ratio)
                (replication_world w d (select_candidates containers image)))
      as (_ & _ & _ & Hcopy).
    destruct (copyContainer template (Up ratio)
                (replication_world w d (select_candidates containers image)))
      as [w2 [[e|]|msg|]]; try discriminate.
    + exact (Hcopy err).
    + destruct (deleteContainer_calls (select_candidates containers image)
                  (Down ratio) w2) as (_ & _ & _ & Hdel).
      exact (Hdel err).
Qed.

End Step.

(** A step on the fleet with the ratio 2:1: the count fits and the listing
    is short. *)
Lemma job_draws_in_bounds_witness :
  snd (job "app:v1" (mkRatio 2 1) (Fake.world Fake.fleet))
  <> Panic "invalid argument to Intn".
Proof.
  refine (proj1 (job_draws_in_bounds "app:v1" (mkRatio 2 1) (Fake.world Fake.fleet) _ _)).
  - simpl. lia.
  - intros d containers H. injection H as _ <-. reflexivity.
Defined.

(** A daemon that fails at its fifth call: the removal fails and the step
    returns its error. *)
Lemma job_errors_witness :
  snd (job "app:v1" (mkRatio 1 1)
           (Fake.world (Fake.mkState [Fake.app1] 0 (Some 5%nat))))
  = Done (Some (Errorf_w "could not remove container id  %s: %w"
                         [AStr "a1"] Fake.unavailable)) /\
  job_error (Errorf_w "could not remove container id  %s: %w"
                      [AStr "a1"] Fake.unavailable).
Proof.
  split; [reflexivity|].
  exact (job_errors "app:v1" (mkRatio 1 1)
           (Fake.world (Fake.mkState [Fake.app1] 0 (Some 5%nat))) _ eq_refl).
Defined.

(** ** Destruction, call by call *)

(** X6. With a count that does not exceed the pool, [deleteContainer]
    tears the containers it draws down one after the other, as the driver
    answers, and stops at the first call that fails: after a stop that fails
    it returns that error, wrapped, having called nothing after the stop;
    after a wait that fails it never returns and removes nothing; after a
    removal that fails it returns that error, wrapped; in each case the
    containers drawn later are not touched, and the daemon is left as the last
    call left it. *)
Theorem deleteContainer_fails_fast {cl : Client} (candidates : list Container) (n : Z)
    (w : World cl) :
  0 <= n <= len candidates ->
  len candidates < 2 ^ 63 ->
  exists calls,
    destroyed (drawn candidates w (Z.to_nat n)) (dk w)
              (dk (fst (deleteContainer candidates n w))) calls
              (snd (deleteContainer candidates n w)) /\
    trace (fst (deleteContainer candidates n w)) = trace w ++ calls.
Proof.
  intros Hn Hlen. unfold deleteContainer.
  rewrite (guard_passes candidates n Hn Hlen). unfold for_uint64.
  destruct candidates as [|c0 rest] eqn:Hpool.
  - assert (Hz : Z.to_nat n = 0%nat) by (unfold len in Hn; simpl in Hn; lia).
    rewrite Hz. exists []. cbn. rewrite app_nil_r. split; [constructor|reflexivity].
  - rewrite <- Hpool.
    assert (Hne : candidates <> []) by (rewrite Hpool; discriminate).
    apply (iterate_destroyed candidates (Z.to_nat n) Hne 0 w).
Qed.

(** Two draws of the same container: it is torn down, and the stop of the
    second draw fails. *)
Lemma deleteContainer_fails_fast_witness :
  exists calls,
    destroyed (drawn [Fake.app1; Fake.app2] (Fake.stuck_world Fake.fleet 0) (Z.to_nat 2))
              (dk (Fake.stuck_world Fake.fleet 0))
              (dk (fst (deleteContainer [Fake.app1; Fake.app2] 2
                                        (Fake.stuck_world Fake.fleet 0))))
              calls
              (snd (deleteContainer [Fake.app1; Fake.app2] 2
                                    (Fake.stuck_world Fake.fleet 0))) /\
    trace (fst (deleteContainer [Fake.app1; Fake.app2] 2 (Fake.stuck_world Fake.fleet 0)))
    = trace (Fake.stuck_world Fake.fleet 0) ++ calls.
Proof.
  refine (deleteContainer_fails_fast [Fake.app1; Fake.app2] 2
            (Fake.stuck_world Fake.fleet 0) _ _).
  - unfold len. simpl. lia.
  - reflexivity.
Defined.

(** X7. For a count that fits an [int], the guard of [deleteContainer] is
    exact: a count above the size of the pool is refused with the count
    error before anything is called or drawn, and a count within the pool is
    never refused with it. *)
Theorem deleteContainer_guard_exact {cl : Client} (candidates : list Container) (n : Z)
    (w : World cl) :
  0 <= n < 2 ^ 63 ->
  len candidates < 2 ^ 63 ->
  (len candidates < n ->
   deleteContainer candidates n w
   = (w, Done (Some (Errorf "can not delete %v containers when exists only %v"
                            [AUint n; AInt (len candidates)])))) /\
  (n <= len candidates ->
   forall err, snd (deleteContainer candidates n w) = Done (Some err) ->
               ~ InsufficientCandidatesError err).
Proof.
  intros Hn Hlen. split.
  - intros Hbig. apply deleteContainer_insufficient. lia.
  - intros Hsmall err Herr Hkind.
    unfold deleteContainer in Herr.
    rewrite (guard_passes candidates n ltac:(lia) Hlen) in Herr.
    unfold for_uint64 in Herr. destruct candidates as [|c0 rest] eqn:Hpool.
    + assert (Hz : Z.to_nat n = 0%nat) by (unfold len in Hsmall; simpl in Hsmall; lia).
      rewrite Hz in Herr. discriminate.
    + rewrite <- Hpool in *.
      assert (Hne : candidates <> []) by (rewrite Hpool; discriminate).
      destruct (iterate_delete_result candidates (Z.to_nat n) Hne 0 w)
        as (calls & _ & Hres).
      rewrite Herr in Hres. inversion Hres; subst; inversion Hkind.
Qed.

(** Three deletions asked of a pool of one. *)
Lemma deleteContainer_guard_exact_witness :
  deleteContainer [Fake.app1] 3 (Fake.world Fake.fleet)
  = (Fake.world Fake.fleet,
     Done (Some (Errorf "can not delete %v containers when exists only %v"
                        [AUint 3; AInt 1]))).
Proof.
  refine (proj1 (deleteContainer_guard_exact [Fake.app1] 3 (Fake.world Fake.fleet) _ _) _).
  - lia.
  - reflexivity.
  - reflexivity.
Defined.

(** X8. When the stop of the container drawn first succeeds and its wait
    fails, [deleteContainer] never returns: the receive on the result
    channel is not answered, the error of the wait is dropped, and the
    container is not removed. *)
Theorem deleteContainer_blocks_on_failed_wait {cl : Client}
    (candidates : list Container) (n : Z) (w : World cl)
    (victim : Container) (d1 d2 : daemon cl) (err : error) :
  1 <= n <= len candidates ->
  len candidates < 2 ^ 63 ->
  drawn candidates w 1 = [victim] ->
  ContainerStop cl (ID victim) (dk w) = (d1, None) ->
  ContainerWait cl (ID victim) WaitConditionNotRunning d1 = (d2, WaitError err) ->
  snd (deleteContainer candidates n w) = Blocked /\
  trace (fst (deleteContainer candidates n w))
  = trace w ++ [CStop (ID victim); CWait (ID victim) WaitConditionNotRunning].
Proof.
  intros Hn Hlen Hdrawn Hstop Hwait.
  unfold deleteContainer. rewrite (guard_passes candidates n ltac:(lia) Hlen).
  unfold for_uint64.
  destruct (Z.to_nat n) as [|k] eqn:Hk; [lia|]. rewrite iterate_step.
  assert (Hpos : 0 < len candidates) by lia.
  pose proof (Z.mod_pos_bound (generator w (rng_seed w) (rng_pos w))
                              (len candidates) Hpos) as Hidx.
  assert (Honce : delete_once candidates w
                  = (mkWorld d2 (trace w ++ [CStop (ID victim);
                                              CWait (ID victim) WaitConditionNotRunning])
                             (logs w ++ [mkEntry InfoLevel [("container", ID victim)]
                                                 "stop container"])
                             (generator w) (rng_seed w) (S (rng_pos w)) (clock w),
                     Blocked)).
  { unfold delete_once, bind, rand_Intn.
    destruct (len candidates <=? 0) eqn:Hle; [apply Z.leb_le in Hle; lia|].
    match goal with
    | |- context [index candidates ?i ?w1] =>
        destruct (index_in_range candidates i w1 Hidx) as (x & Hnth & _ & ->)
    end.
    assert (Hx : x = victim).
    { unfold drawn in Hdrawn. cbn [drawn_from] in Hdrawn.
      rewrite Hnth in Hdrawn. now injection Hdrawn. }
    subst x.
    unfold client_ContainerStop, client_ContainerWait_ready, logrus. cbn.
    rewrite Hstop. cbn. rewrite Hwait. unfold called. cbn.
    now rewrite <- app_assoc. }
  rewrite Honce. split; reflexivity.
Qed.

(** A daemon that removes a container when it is stopped: the wait that
    follows finds no container. *)
Lemma deleteContainer_blocks_on_failed_wait_witness :
  snd (deleteContainer [Fake.app1] 1 Daemons.autoremove_world) = Blocked /\
  trace (fst (deleteContainer [Fake.app1] 1 Daemons.autoremove_world))
  = trace Daemons.autoremove_world ++ [CStop "a1"; CWait "a1" WaitConditionNotRunning].
Proof.
  refine (deleteContainer_blocks_on_failed_wait
            [Fake.app1] 1 Daemons.autoremove_world Fake.app1
            (Fake.mkState [Fake.db1; Fake.app2; Fake.app3] 0 None)
            (Fake.mkState [Fake.db1; Fake.app2; Fake.app3] 0 None)
            Fake.no_such_container _ _ _ _ _).
  - unfold len. simpl. lia.
  - reflexivity.
  - reflexivity.
  - reflexivity.
  - reflexivity.
Defined.

(** ** Steps that succeed *)

Section Success.

Context {cl : Client}.

(** A replication that returns no error inspected and then created and
    started as many containers as asked. *)
Lemma copyContainer_success (container : Container) (n : Z) (w : World cl) :
  snd (copyContainer container n w) = Done None ->
  exists d infos ids,
    ContainerInspect cl (ID container) (dk w) = (d, inl infos) /\
    List.length ids = Z.to_nat n /\
    trace (fst (copyContainer container n w))
    = trace w ++ CInspect (ID container)
        :: replications (CCreate (JSON_Config infos) (JSON_HostConfig infos)
                                 (mkNetworkingConfig (NetworkSettings_Networks container)) "")
                        ids.
Proof.
  unfold copyContainer, bind, client_ContainerInspect.
  destruct (ContainerInspect cl (ID container) (dk w)) as [d [infos|err]];
    [|discriminate].
  unfold for_uint64.
  destruct (iterate_copy (JSON_Config infos) (JSON_HostConfig infos)
              (mkNetworkingConfig (NetworkSettings_Networks container))
              (Z.to_nat n) 0 (called w d (CInspect (ID container))))
    as (calls & Htrace & Hres).
  intros Hdone. rewrite Hdone in Hres.
  inversion Hres as [ids Hlen Hcalls | |]. subst calls.
  exists d, infos, ids. split; [reflexivity|]. split; [exact Hlen|].
  rewrite Htrace. cbn. now rewrite <- app_assoc.
Qed.

(** A destruction that returns no error, for a count that fits an [int]:
    the count did not exceed the pool and every container drawn was torn
    down. *)
Lemma deleteContainer_success (candidates : list Container) (n : Z) (w : World cl) :
  0 <= n < 2 ^ 63 -> len candidates < 2 ^ 63 ->
  snd (deleteContainer candidates n w) = Done None ->
  n <= len candidates /\
  trace (fst (deleteContainer candidates n w))
  = trace w ++ flat_map teardown (drawn candidates w (Z.to_nat n)).
Proof.
  intros Hn Hlen Hdone.
  assert (Hle : n <= len candidates).
  { destruct (Z.le_gt_cases n (len candidates)) as [H|H]; [exact H|].
    rewrite (deleteContainer_insufficient candidates n w) in Hdone by lia.
    discriminate. }
  split; [exact Hle|].
  revert Hdone. unfold deleteContainer.
  rewrite (guard_passes candidates n ltac:(lia) Hlen). unfold for_uint64.
  destruct candidates as [|c0 rest] eqn:Hpool.
  - assert (Hz : Z.to_nat n = 0%nat) by (unfold len in Hle; simpl in Hle; lia).
    rewrite Hz. cbn. now rewrite app_nil_r.
  - rewrite <- Hpool.
    assert (Hne : candidates <> []) by (rewrite Hpool; discriminate).
    destruct (iterate_delete candidates (Z.to_nat n) Hne 0 w)
      as (calls & Htrace & _ & Hall & _).
    intros Hdone. now rewrite Htrace, (Hall Hdone).
Qed.

(** A replication that returns no error, by the answers of the driver. *)
Lemma copyContainer_replicated_all (container : Container) (n : Z) (w : World cl) :
  snd (copyContainer container n w) = Done None ->
  exists d infos calls,
    ContainerInspect cl (ID container) (dk w) = (d, inl infos) /\
    replicated (JSON_Config infos) (JSON_HostConfig infos)
               (mkNetworkingConfig (NetworkSettings_Networks container))
               (Z.to_nat n) d (dk (fst (copyContainer container n w))) calls
               (Done None) /\
    trace (fst (copyContainer container n w))
    = trace w ++ CInspect (ID container) :: calls.
Proof.
  unfold copyContainer, bind, client_ContainerInspect.
  destruct (ContainerInspect cl (ID container) (dk w)) as [d [infos|err]];
    [|discriminate].
  unfold for_uint64.
  destruct (iterate_replicated (JSON_Config infos) (JSON_HostConfig infos)
              (mkNetworkingConfig (NetworkSettings_Networks container))
              (Z.to_nat n) 0 (called w d (CInspect (ID container))))
    as (calls & Hrun & Htrace).
  intros Hdone. rewrite Hdone in Hrun.
  exists d, infos, calls. split; [reflexivity|]. split; [exact Hrun|].
  rewrite Htrace. cbn. now rewrite <- app_assoc.
Qed.

(** A destruction that returns no error, for a count that fits an [int], by
    the answers of the driver. *)
Lemma deleteContainer_destroyed_all (candidates : list Container) (n : Z) (w : World cl) :
  0 <= n < 2 ^ 63 -> len candidates < 2 ^ 63 ->
  snd (deleteContainer candidates n w) = Done None ->
  n <= len candidates /\
  exists calls,
    destroyed (drawn candidates w (Z.to_nat n)) (dk w)
              (dk (fst (deleteContainer candidates n w))) calls (Done None) /\
    trace (fst (deleteContainer candidates n w)) = trace w ++ calls.
Proof.
  intros Hn Hlen Hdone.
  assert (Hle : n <= len candidates).
  { destruct (Z.le_gt_cases n (len candidates)) as [H|H]; [exact H|].
    rewrite (deleteContainer_insufficient candidates n w) in Hdone by lia.
    discriminate. }
  split; [exact Hle|].
  revert Hdone. unfold deleteContainer.
  rewrite (guard_passes candidates n ltac:(lia) Hlen). unfold for_uint64.
  destruct candidates as [|c0 rest] eqn:Hpool.
  - assert (Hz : Z.to_nat n = 0%nat) by (unfold len in Hle; simpl in Hle; lia).
    rewrite Hz. cbn. intros _. exists []. rewrite app_nil_r.
    split; [constructor|reflexivity].
  - rewrite <- Hpool.
    assert (Hne : candidates <> []) by (rewrite Hpool; discriminate).
    destruct (iterate_destroyed candidates (Z.to_nat n) Hne 0 w)
      as (calls & Hrun & Htrace).
    intros Hdone. rewrite Hdone in Hrun.
    exists calls. split; [exact Hrun|exact Htrace].
Qed.

(** X9. A step that returns no error, end to end, by the answers of the
    driver.  It listed; it inspected the candidate at the index the generator
    gives first after being seeded from the clock, and the inspection
    succeeded; with the configuration and host configuration that inspection
    returned and the endpoint bindings of that candidate it created as many
    containers as the ratio asks, starting after each creation the container
    the creation answered with, every creation and start succeeding; then it
    stopped, waited for and removed the candidates at the indices the generator
    gives next, as many as the ratio asks and no more than the pool holds,
    every one of these calls succeeding; and it called nothing else. *)
Theorem job_success (image : string) (ratio : RatioValue) (w : World cl)
    (d : daemon cl) (containers : list Container) :
  ContainerList cl (dk w) = (d, inl containers) ->
  select_candidates containers image <> [] ->
  0 <= Down ratio < 2 ^ 63 ->
  len containers < 2 ^ 63 ->
  snd (job image ratio w) = Done None ->
  Down ratio <= len (select_candidates containers image) /\
  exists template d1 infos d2 replication destruction,
    nth_error (select_candidates containers image)
              (Z.to_nat (generator w (clock w) 0%nat
                         mod len (select_candidates containers image)))
    = Some template /\
    ContainerInspect cl (ID template) d = (d1, inl infos) /\
    replicated (JSON_Config infos) (JSON_HostConfig infos)
               (mkNetworkingConfig (NetworkSettings_Networks template))
               (Z.to_nat (Up ratio)) d1 d2 replication (Done None) /\
    destroyed (drawn_from (select_candidates containers image) (generator w (clock w))
                          1 (Z.to_nat (Down ratio)))
              d2 (dk (fst (job image ratio w))) destruction (Done None) /\
    trace (fst (job image ratio w))
    = trace w ++ CList :: CInspect (ID template) :: replication ++ destruction.
Proof.
  intros Hlist Hpool Hdown Hbound.
  pose proof (select_candidates_len containers image) as Hsub.
  destruct (job_cases image ratio w)
    as [(d' & err & Hl & _) | [(d' & containers' & Hl & Hnone & _)
       | (d' & containers' & template & Hl & _ & Hnth & ->)]];
    rewrite Hlist in Hl; try discriminate.
  { injection Hl as _ <-. contradiction. }
  injection Hl as <- <-.
  pose proof (copyContainer_same_rng template (Up ratio)
                (replication_world w d (select_candidates containers image)))
    as (Hg & Hs & Hp & _).
  pose proof (copyContainer_replicated_all template (Up ratio)
                (replication_world w d (select_candidates containers image))) as Hcopy.
  destruct (copyContainer template (Up ratio)
              (replication_world w d (select_candidates containers image)))
    as [w2 [[err|]|msg|]]; try discriminate.
  cbn [fst snd] in *. intros Hdone.
  destruct (Hcopy eq_refl) as (d1 & infos & replication & Hinspect & Hrun & Htrace).
  destruct (deleteContainer_destroyed_all (select_candidates containers image)
              (Down ratio) w2 Hdown ltac:(lia) Hdone)
    as [Hle (destruction & Htorn & Htrace')].
  split; [exact Hle|].
  exists template, d1, infos, (dk w2), replication, destruction.
  split; [exact Hnth|]. split; [exact Hinspect|]. split; [exact Hrun|]. split.
  - unfold drawn in Htorn. rewrite Hg, Hs, Hp in Htorn. exact Htorn.
  - rewrite Htrace', Htrace. cbn. rewrite <- !app_assoc. reflexivity.
Qed.

(** A loop whose body always falls through runs to its end. *)
Lemma iterate_all_done (body : M cl (option error)) :
  (forall w, snd (body w) = Done None) ->
  forall k i w, snd (iterate k i (fun _ => body) w) = Done None.
Proof.
  intros Hbody. induction k as [|k IH]; intros i w; [reflexivity|].
  rewrite iterate_step. specialize (Hbody w).
  destruct (body w) as [w1 r]. cbn [snd] in Hbody. subst r. apply IH.
Qed.

(** X10. Against a driver that grants every call, [copyContainer] returns
    no error after one inspection and exactly [n] creations, each followed by
    its start. *)
Theorem copyContainer_completes (container : Container) (n : Z) (w : World cl) :
  obliging cl ->
  snd (copyContainer container n w) = Done None /\
  exists infos ids,
    List.length ids = Z.to_nat n /\
    trace (fst (copyContainer container n w))
    = trace w ++ CInspect (ID container)
        :: replications (CCreate (JSON_Config infos) (JSON_HostConfig infos)
                                 (mkNetworkingConfig (NetworkSettings_Networks container)) "")
                        ids.
Proof.
  intros (Hinspect & Hcreate & Hstart & _).
  assert (Hdone : snd (copyContainer container n w) = Done None).
  { unfold copyContainer, bind, client_ContainerInspect.
    destruct (Hinspect (ID container) (dk w)) as [infos Hi].
    destruct (ContainerInspect cl (ID container) (dk w)) as [d r].
    cbn [snd] in Hi. subst r. unfold for_uint64.
    apply iterate_all_done. intros v.
    unfold copy_once, bind, client_ContainerCreate.
    match goal with
    | |- context [ContainerCreate cl ?c ?h ?nc ?nm (dk v)] =>
        destruct (Hcreate c h nc nm (dk v)) as [body Hb];
        destruct (ContainerCreate cl c h nc nm (dk v)) as [d1 r1]
    end.
    cbn [snd] in Hb. subst r1.
    rewrite (for_each_logrus _ WarnLevel (fun _ => []) (fun warning => warning)).
    unfold logrus, client_ContainerStart. cbn.
    pose proof (Hstart (Created_ID body) d1) as Hs.
    destruct (ContainerStart cl (Created_ID body) d1) as [d2 r2].
    cbn [snd] in Hs. now subst r2. }
  split; [exact Hdone|].
  destruct (copyContainer_success container n w Hdone) as (d & infos & ids & _ & H).
  now exists infos, ids.
Qed.

(** X11. Against a driver that grants every call, [deleteContainer] with a
    count that does not exceed the pool returns no error after tearing down
    every container it drew: three calls for each. *)
Theorem deleteContainer_completes (candidates : list Container) (n : Z) (w : World cl) :
  obliging cl ->
  0 <= n <= len candidates ->
  len candidates < 2 ^ 63 ->
  snd (deleteContainer candidates n w) = Done None /\
  trace (fst (deleteContainer candidates n w))
  = trace w ++ flat_map teardown (drawn candidates w (Z.to_nat n)) /\
  List.length (flat_map teardown (drawn candidates w (Z.to_nat n))) = (3 * Z.to_nat n)%nat.
Proof.
  intros (_ & _ & _ & Hstop & Hwait & Hremove) Hn Hlen.
  assert (Hdone : snd (deleteContainer candidates n w) = Done None).
  { unfold deleteContainer. rewrite (guard_passes candidates n Hn Hlen).
    unfold for_uint64. destruct (Z.to_nat n) as [|k] eqn:Hk; [reflexivity|].
    rewrite <- Hk. apply iterate_all_done. intros v.
    assert (Hpos : 0 < len candidates) by lia.
    pose proof (Z.mod_pos_bound (generator v (rng_seed v) (rng_pos v))
                                (len candidates) Hpos) as Hidx.
    unfold delete_once, bind, rand_Intn.
    destruct (len candidates <=? 0) eqn:Hle; [apply Z.leb_le in Hle; lia|].
    match goal with
    | |- context [index candidates ?i ?w1] =>
        destruct (index_in_range candidates i w1 Hidx) as (victim & _ & _ & ->)
    end.
    unfold client_ContainerStop, client_ContainerWait_ready, client_ContainerRemove,
      logrus. cbn.
    pose proof (Hstop (ID victim) (dk v)) as H1.
    destruct (ContainerStop cl (ID victim) (dk v)) as [d1 r1].
    cbn [snd] in H1. subst r1. cbn.
    destruct (Hwait (ID victim) WaitConditionNotRunning d1) as [code H2].
    destruct (ContainerWait cl (ID victim) WaitConditionNotRunning d1) as [d2 r2].
    cbn [snd] in H2. subst r2. cbn.
    pose proof (Hremove (ID victim) d2) as H3.
    destruct (ContainerRemove cl (ID victim) d2) as [d3 r3].
    cbn [snd] in H3. now subst r3. }
  split; [exact Hdone|].
  destruct (deleteContainer_success candidates n w ltac:(lia) Hlen Hdone) as [_ Htrace].
  split; [exact Htrace|].
  assert (Hcount : List.length (drawn candidates w (Z.to_nat n)) = Z.to_nat n).
  { destruct candidates as [|c0 rest] eqn:Hpool.
    - assert (Hz : Z.to_nat n = 0%nat) by (unfold len in Hn; simpl in Hn; lia).
      now rewrite Hz.
    - rewrite <- Hpool.
      assert (Hne : candidates <> []) by (rewrite Hpool; discriminate).
      apply (drawn_from_members candidates _ _ Hne). }
  revert Hcount. generalize (drawn candidates w (Z.to_nat n)).
  generalize (Z.to_nat n). intros k victims <-.
  induction victims as [|v victims IH]; [reflexivity|].
  cbn [flat_map teardown app List.length]. rewrite IH. lia.
Qed.

End Success.

(** The daemon that grants every call. *)
Lemma granting_obliging : obliging Daemons.granting.
Proof. repeat split; intros; try reflexivity; eexists; reflexivity. Defined.

(** Three copies of a container on the daemon that grants every call. *)
Lemma copyContainer_completes_witness :
  snd (copyContainer Fake.app1 3 Daemons.granting_world) = Done None /\
  List.length (trace (fst (copyContainer Fake.app1 3 Daemons.granting_world))) = 7%nat.
Proof.
  split; [|reflexivity].
  exact (proj1 (copyContainer_completes Fake.app1 3 Daemons.granting_world
                                        granting_obliging)).
Defined.

(** Two deletions over a pool of two on the daemon that grants every call. *)
Lemma deleteContainer_completes_witness :
  snd (deleteContainer [Fake.app1; Fake.app2] 2 Daemons.granting_world) = Done None.
Proof.
  refine (proj1 (deleteContainer_completes [Fake.app1; Fake.app2] 2
                   Daemons.granting_world granting_obliging _ _)).
  - unfold len. simpl. lia.
  - reflexivity.
Defined.

(** The step on the fleet with the ratio 2:1 returns no error. *)
Lemma job_success_witness :
  1 <= len (select_candidates [Fake.app1; Fake.db1; Fake.app2; Fake.app3] "app:v1").
Proof.
  refine (proj1 (job_success "app:v1" (mkRatio 2 1) (Fake.world Fake.fleet) Fake.fleet
                   [Fake.app1; Fake.db1; Fake.app2; Fake.app3] eq_refl _ _ _ eq_refl)).
  - intros E. vm_compute in E. discriminate E.
  - simpl. lia.
  - reflexivity.
Defined.

(** ** The loop of [main] *)

Section MainLoop.

Context {cl : Client}.

Variable error_text : error -> string.

Lemma no_listing_in_replication (calls : list call) :
  forallb replication_call calls = true -> filter listing_call calls = [].
Proof.
  induction calls as [|c calls IH]; [reflexivity|].
  cbn [forallb filter]. intros H. apply andb_true_iff in H as [Hc Hcalls].
  destruct c; try discriminate; cbn; now apply IH.
Qed.

Lemma no_listing_in_teardown (calls : list call) :
  forallb teardown_call calls = true -> filter listing_call calls = [].
Proof.
  induction calls as [|c calls IH]; [reflexivity|].
  cbn [forallb filter]. intros H. apply andb_true_iff in H as [Hc Hcalls].
  destruct c; try discriminate; cbn; now apply IH.
Qed.

(** A step lists once. *)
Lemma job_lists_once (image : string) (ratio : RatioValue) (w : World cl) :
  exists calls,
    trace (fst (job image ratio w)) = trace w ++ calls /\
    List.length (filter listing_call calls) = 1%nat.
Proof.
  destruct (job_cases image ratio w)
    as [(d & err & _ & ->) | [(d & containers & _ & _ & ->)
       | (d & containers & template & _ & _ & _ & ->)]];
    try (now exists [CList]).
  destruct (copyContainer_calls template (Up ratio)
              (replication_world w d (select_candidates containers image)))
    as (made & Hmade & Hkind & _).
  destruct (copyContainer template (Up ratio)
              (replication_world w d (select_candidates containers image)))
    as [w2 r2].
  cbn [fst replication_world trace] in Hmade.
  assert (Hone : trace w2 = trace w ++ CList :: made /\
                 List.length (filter listing_call (CList :: made)) = 1%nat).
  { split; [now rewrite Hmade, <- app_assoc|].
    cbn. now rewrite (no_listing_in_replication made Hkind). }
  destruct r2 as [[err|]|msg|]; try (now exists (CList :: made)).
  destruct (deleteContainer_calls (select_candidates containers image) (Down ratio) w2)
    as (torn & Htorn & Hkind' & _).
  exists (CList :: made ++ torn). split.
  - rewrite Htorn, (proj1 Hone), <- app_assoc. reflexivity.
  - cbn. rewrite filter_app, (no_listing_in_replication made Hkind),
      (no_listing_in_teardown torn Hkind'). reflexivity.
Qed.

(** One tick: the step runs; if it returns, with an error or without, the
    loop goes on with the events that follow. *)
Lemma main_loop_tick (image : string) (ratio : RatioValue) (rest : list event)
    (w : World cl) :
  main_loop error_text image ratio (Tick :: rest) w
  = match job image ratio w with
    | (w1, Done (Some err)) =>
        main_loop error_text image ratio rest
          (fst (logrus ErrorLevel [("error", error_text err)] "job failed" w1))
    | (w1, Done None) => main_loop error_text image ratio rest w1
    | (w1, Panic msg) => (w1, Panic msg)
    | (w1, Blocked) => (w1, Blocked)
    end.
Proof.
  cbn [main_loop]. unfold bind.
  now destruct (job image ratio w) as [w1 [[err|]|msg|]].
Qed.

(** X12. Events that follow the first signal change nothing: the loop has
    returned, no step runs and nothing more is called or logged. *)
Theorem main_loop_returns_at_signal (image : string) (ratio : RatioValue)
    (before after : list event) (w : World cl) :
  main_loop error_text image ratio (before ++ Interrupt :: after) w
  = main_loop error_text image ratio (before ++ [Interrupt]) w.
Proof.
  revert w. induction before as [|e before IH]; intros w; [reflexivity|].
  destruct e; [|reflexivity].
  cbn [app]. rewrite !main_loop_tick.
  destruct (job image ratio w) as [w1 [[err|]|msg|]]; try reflexivity; apply IH.
Qed.

(** X13. As long as its steps return, the loop runs one step for each tick
    received before the first signal, whether the steps before it returned
    errors or not: it lists the containers once per such tick, and it ends
    returned exactly when a signal was received. *)
Theorem main_loop_one_step_per_tick (image : string) (ratio : RatioValue)
    (events : list event) (w : World cl) (st : loop_state) :
  snd (main_loop error_text image ratio events w) = Done st ->
  exists calls,
    trace (fst (main_loop error_text image ratio events w)) = trace w ++ calls /\
    List.length (filter listing_call calls) = ticks_served events /\
    (st = Returned <-> In Interrupt events).
Proof.
  revert w. induction events as [|e events IH]; intros w.
  - cbn. intros H. injection H as <-. exists []. rewrite app_nil_r.
    repeat split; try discriminate. contradiction.
  - destruct e.
    + rewrite main_loop_tick.
      destruct (job_lists_once image ratio w) as (calls & Htrace & Hone).
      destruct (job image ratio w) as [w1 [[err|]|msg|]]; try discriminate;
        cbn [fst] in Htrace; intros Hdone;
        destruct (IH _ Hdone) as (calls' & Htrace' & Hcount & Hst);
        exists (calls ++ calls');
        (split; [rewrite Htrace'; cbn; now rewrite Htrace, <- app_assoc|]);
        (split; [rewrite filter_app, length_app, Hone, Hcount; reflexivity|]);
        rewrite Hst; cbn; intuition discriminate.
    + cbn. intros H. injection H as <-. exists []. rewrite app_nil_r.
      repeat split. now left.
Qed.

End MainLoop.

(** A daemon that fails from its sixth call on: the first step fails at its
    removal, the second at its listing, and the loop is still waiting. *)
Lemma main_loop_one_step_per_tick_witness :
  exists calls,
    trace (fst (main_loop (fun _ => "failed") "app:v1" (mkRatio 1 1) [Tick; Tick]
                          (Fake.world (Fake.mkState [Fake.app1] 0 (Some 5%nat)))))
    = trace (Fake.world (Fake.mkState [Fake.app1] 0 (Some 5%nat))) ++ calls /\
    List.length (filter listing_call calls) = ticks_served [Tick; Tick] /\
    (Waiting = Returned <-> In Interrupt [Tick; Tick]).
Proof.
  exact (main_loop_one_step_per_tick (fun _ => "failed") "app:v1" (mkRatio 1 1)
           [Tick; Tick] (Fake.world (Fake.mkState [Fake.app1] 0 (Some 5%nat)))
           Waiting eq_refl).
Defined.

(** ** Selection *)

(** X14. Selecting again from the candidates changes nothing; the
    candidates of two different images have no container in common; and the
    candidates of a listing in two parts are those of the first part followed
    by those of the second. *)
Theorem select_candidates_stable (containers more : list Container) (image other : string) :
  select_candidates (select_candidates containers image) image
  = select_candidates containers image /\
  (image <> other ->
   forall c, In c (select_candidates containers image) ->
             ~ In c (select_candidates containers other)) /\
  select_candidates (containers ++ more) image
  = select_candidates containers image ++ select_candidates more image.
Proof.
  rewrite !select_candidates_filter. repeat split.
  - induction containers as [|c containers IH]; [reflexivity|].
    cbn [filter]. destruct (String.eqb (Image c) image) eqn:Hc; [|exact IH].
    cbn [filter]. now rewrite Hc, IH.
  - intros Hne c Hin Hin'.
    apply filter_In in Hin as [_ Hin]. apply filter_In in Hin' as [_ Hin'].
    apply String.eqb_eq in Hin, Hin'. congruence.
  - apply filter_app.
Qed.

(** The candidates of app:v1 and of db:v2 in the fleet are apart. *)
Lemma select_candidates_stable_witness :
  ~ In Fake.app1 (select_candidates [Fake.app1; Fake.db1; Fake.app2; Fake.app3] "db:v2").
Proof.
  refine (proj1 (proj2 (select_candidates_stable
                          [Fake.app1; Fake.db1; Fake.app2; Fake.app3] []
                          "app:v1" "db:v2")) _ Fake.app1 _).
  - discriminate.
  - left. reflexivity.
Defined.

(** ** The program as [main] runs it *)

Section FromMain.

Context {cl : Client}.

Variable error_text : error -> string.

(** A step with a count of deletions that fits an [int], over a listing
    whose length does: neither a draw nor an indexing panics. *)
Lemma job_in_bounds (image : string) (ratio : RatioValue) (w : World cl) :
  0 <= Down ratio < 2 ^ 63 ->
  (forall d d' containers,
     ContainerList cl d = (d', inl containers) -> len containers < 2 ^ 63) ->
  forall msg, snd (job image ratio w) <> Panic msg.
Proof.
  intros Hdown Hbound msg.
  destruct (job_cases image ratio w)
    as [(d & err & _ & ->) | [(d & containers & _ & _ & ->)
       | (d & containers & template & Hlist & Hpool & _ & ->)]];
    try discriminate.
  destruct (copyContainer_returns template (Up ratio)
              (replication_world w d (select_candidates containers image))) as [r Hr].
  destruct (copyContainer template (Up ratio)
              (replication_world w d (select_candidates containers image)))
    as [w2 r2].
  cbn [snd] in Hr. subst r2. destruct r as [err|]; [discriminate|].
  apply deleteContainer_in_bounds; [exact Hdown|].
  pose proof (select_candidates_len containers image).
  specialize (Hbound _ _ _ Hlist). lia.
Qed.

(** X15. With the ratio [main] computes from its flag, no step of the loop
    makes a draw with a bound that is not positive or indexes the candidates
    out of range, whatever the driver answers and however many ticks come: the
    counts are at most 255, so the guard of [deleteContainer] compares what it
    means to and no draw is made over an empty pool. *)
Theorem main_loop_draws_in_bounds (flag : option string) (image : string)
    (ratio : RatioValue) (events : list event) (w : World cl) :
  main_ratio flag = inl ratio ->
  (forall d d' containers,
     ContainerList cl d = (d', inl containers) -> len containers < 2 ^ 63) ->
  snd (main_loop error_text image ratio events w) <> Panic "invalid argument to Intn" /\
  snd (main_loop error_text image ratio events w) <> Panic "index out of range".
Proof.
  intros Hratio Hbound.
  enough (H : forall msg, snd (main_loop error_text image ratio events w) <> Panic msg)
    by (split; apply H).
  intros msg.
  destruct (main_ratio_bounds flag ratio Hratio) as [_ Hdown].
  assert (Hfits : 0 <= Down ratio < 2 ^ 63).
  { change (2 ^ 63) with 9223372036854775808. lia. }
  revert w. induction events as [|e events IH]; intros w; [discriminate|].
  destruct e; [|discriminate].
  rewrite main_loop_tick.
  pose proof (job_in_bounds image ratio w Hfits Hbound) as Hjob.
  destruct (job image ratio w) as [w1 [[err|]|m|]]; try apply IH; try discriminate.
  now destruct (Hjob m).
Qed.

End FromMain.

(** The flag 3:200 against a pool of two: each step asks for more deletions
    than the pool holds and is refused; nothing panics. *)
Lemma main_loop_draws_in_bounds_witness :
  snd (main_loop (fun _ => "failed") "app:v1" (mkRatio 3 200) [Tick; Tick; Interrupt]
                 Daemons.granting_world) <> Panic "invalid argument to Intn".
Proof.
  refine (proj1 (main_loop_draws_in_bounds (fun _ => "failed") (Some "3:200") "app:v1"
                   (mkRatio 3 200) [Tick; Tick; Interrupt] Daemons.granting_world
                   eq_refl _)).
  intros d d' containers H. injection H as _ <-. reflexivity.
Defined.
